(** * A shallow embedding of the ruburu image-board core (src/src/models.rs,
    src/src/routes/public.rs, src/src/errors.rs).

    The backing store (PostgreSQL tables and the image directories) is an
    explicit state; every database statement and file operation is one
    I/O step that may fail according to a fault schedule carried in the
    state.  A Rust [panic] (an [unwrap] on [None] or on [Err]) is a result of
    its own, distinct from a returned [Err].  Strings are ASCII strings of the
    Standard Library; network addresses are IPv4 addresses as 32-bit [Z]. *)

From Stdlib Require Import ZArith List String Ascii Bool Lia.
Import ListNotations.
Open Scope Z_scope.

(** ** Errors (errors.rs) *)

Inductive DbError := RowNotFound | QueryFailed.

Inductive Error :=
| Db (e : DbError)
| ImageErr
| RocketErr
| DotenvErr
| NotFound
| Io
| Banned (reason : string)
| MissingImage
| MissingOrInvalidCaptchaID.

(** [Error::respond_to]: the HTTP status of each error kind. *)
Definition respond_to_status (e : Error) : Z :=
  match e with
  | Db _ => 500
  | ImageErr => 500
  | RocketErr => 500
  | DotenvErr => 500
  | NotFound => 404
  | Io => 500
  | Banned _ => 200
  | MissingImage => 422
  | MissingOrInvalidCaptchaID => 422
  end.

(** ** Rows of the relational tables *)

Record BoardRow := {
  b_name : string;
  b_title : string;
  b_next_post_id : Z
}.

Record PostRow := {
  p_id : Z;
  p_board : string;
  p_title : option string;
  p_author : option string;
  p_email : option string;
  p_sage : bool;
  p_plaintext_content : option string;
  p_html_content : string;
  p_posted_at : Z;
  p_thread : Z;
  p_ip : Z;
  p_image : option Z
}.

Record ReplyRow := {
  r_message_id : Z;
  r_message_board : string;
  r_reply_id : Z;
  r_reply_board : string;
  r_reply_thread : Z
}.

(** An [inet] value: an address and a mask length. *)
Record IpNetwork := { net_addr : Z; net_prefix : Z }.

Record BanRow := {
  ban_ip : IpNetwork;
  ban_reason : string;
  ban_created_at : Z;
  ban_duration : Z
}.

Record CaptchaRow := { c_id : Z; c_solution : string }.

Record Tables := {
  boards : list BoardRow;
  posts : list PostRow;
  replies : list ReplyRow;
  images : list Z;
  bans : list BanRow;
  captchas : list CaptchaRow
}.

(** The writes a statement can make. *)
Inductive Write :=
| WIncr (board : string)
| WPost (row : PostRow)
| WReply (row : ReplyRow)
| WImage (hash : Z)
| WDelCaptcha (id : Z).

Definition incr_board (name : string) (b : BoardRow) : BoardRow :=
  if String.eqb (b_name b) name
  then {| b_name := b_name b; b_title := b_title b;
          b_next_post_id := b_next_post_id b + 1 |}
  else b.

Definition apply_write (w : Write) (d : Tables) : Tables :=
  match w with
  | WIncr name =>
      {| boards := map (incr_board name) (boards d); posts := posts d;
         replies := replies d; images := images d; bans := bans d;
         captchas := captchas d |}
  | WPost row =>
      {| boards := boards d; posts := posts d ++ [row];
         replies := replies d; images := images d; bans := bans d;
         captchas := captchas d |}
  | WReply row =>
      {| boards := boards d; posts := posts d;
         replies := replies d ++ [row]; images := images d; bans := bans d;
         captchas := captchas d |}
  | WImage h =>
      {| boards := boards d; posts := posts d;
         replies := replies d; images := images d ++ [h]; bans := bans d;
         captchas := captchas d |}
  | WDelCaptcha id =>
      {| boards := boards d; posts := posts d;
         replies := replies d; images := images d; bans := bans d;
         captchas := filter (fun c => negb (Z.eqb (c_id c) id)) (captchas d) |}
  end.

(** A transaction's pending writes, applied in order at commit. *)
Definition apply_log (log : list Write) (d : Tables) : Tables :=
  fold_left (fun d w => apply_write w d) log d.

(** ** The global state and the fault schedule *)

Inductive Event :=
| EvBegin | EvQuery | EvExec | EvCommit
| EvFileCreate (path : string)
| EvFileWrite (path : string)
| EvDecode | EvEncode.

Record St := {
  st_db : Tables;                              (* committed database *)
  st_fs : list (string * list Byte.byte);      (* files on disk *)
  st_trace : list Event;                       (* I/O performed, newest first *)
  st_clock : nat;                              (* number of I/O steps so far *)
  st_faults : list nat;                        (* the I/O steps that fail *)
  st_now : Z                                   (* the database's NOW() *)
}.

Definition set_db (d : Tables) (s : St) : St :=
  {| st_db := d; st_fs := st_fs s; st_trace := st_trace s;
     st_clock := st_clock s; st_faults := st_faults s; st_now := st_now s |}.

Definition set_fs (fs : list (string * list Byte.byte)) (s : St) : St :=
  {| st_db := st_db s; st_fs := fs; st_trace := st_trace s;
     st_clock := st_clock s; st_faults := st_faults s; st_now := st_now s |}.

Definition log_event (ev : Event) (s : St) : St :=
  {| st_db := st_db s; st_fs := st_fs s; st_trace := ev :: st_trace s;
     st_clock := S (st_clock s); st_faults := st_faults s; st_now := st_now s |}.

Definition faulty (s : St) : bool := existsb (Nat.eqb (st_clock s)) (st_faults s).

(** ** A state, error and panic monad *)

Inductive Res (A : Type) := ROk (a : A) | RErr (e : Error) | RPanic.
Arguments ROk {A} a.
Arguments RErr {A} e.
Arguments RPanic {A}.

Definition M (A : Type) := St -> Res A * St.

Definition ret {A} (a : A) : M A := fun s => (ROk a, s).
Definition throw {A} (e : Error) : M A := fun s => (RErr e, s).
Definition panic {A} : M A := fun s => (RPanic, s).
Definition bind {A B} (m : M A) (k : A -> M B) : M B :=
  fun s => match m s with
           | (ROk a, s') => k a s'
           | (RErr e, s') => (RErr e, s')
           | (RPanic, s') => (RPanic, s')
           end.

Notation "x <- m ;; k" := (bind m (fun x => k))
  (at level 61, m at next level, right associativity).
Notation "m ;;; k" := (bind m (fun _ => k))
  (at level 61, right associativity).

Definition get : M St := fun s => (ROk s, s).
Definition modify (f : St -> St) : M unit := fun s => (ROk tt, f s).

(** One I/O step: it is recorded, and it fails with [e] when the schedule
    says so. *)
Definition io_step (e : Error) (ev : Event) : M unit :=
  fun s => if faulty s then (RErr e, log_event ev s) else (ROk tt, log_event ev s).

(** A statement on the pool: it reads or writes the committed database. *)
Definition pool_query {A} (f : Tables -> A) : M A :=
  io_step (Db QueryFailed) EvQuery ;;; s <- get ;; ret (f (st_db s)).

Definition pool_exec (w : Write) : M unit :=
  io_step (Db QueryFailed) EvExec ;;; modify (fun s => set_db (apply_write w (st_db s)) s).

(** A statement on a transaction: its writes go to the transaction's log;
    dropping the log (returning early with [?]) is the rollback. *)
Definition begin_tx : M (list Write) :=
  io_step (Db QueryFailed) EvBegin ;;; ret [].

Definition tx_exec (log : list Write) (w : Write) : M (list Write) :=
  io_step (Db QueryFailed) EvExec ;;; ret (log ++ [w]).

Definition tx_commit (log : list Write) : M unit :=
  io_step (Db QueryFailed) EvCommit ;;;
  modify (fun s => set_db (apply_log log (st_db s)) s).

(** ** Files (tokio::fs) *)

Definition fs_put (path : string) (c : list Byte.byte)
    (fs : list (string * list Byte.byte)) : list (string * list Byte.byte) :=
  (path, c) :: filter (fun pc => negb (String.eqb (fst pc) path)) fs.

Definition fs_lookup (path : string) (fs : list (string * list Byte.byte))
    : option (list Byte.byte) :=
  match find (fun pc => String.eqb (fst pc) path) fs with
  | Some (_, c) => Some c
  | None => None
  end.

(** [File::create]: creates or truncates the file. *)
Definition file_create (path : string) : M unit :=
  io_step Io (EvFileCreate path) ;;;
  modify (fun s => set_fs (fs_put path [] (st_fs s)) s).

(** [file.write_all(buf)] on a [tokio::fs::File], for a buffer within
    tokio's 2 MiB chunk size (the uploads Rocket's 2 MiB data-form limit
    lets through, and the thumbnails): [poll_write] copies the bytes, hands
    them to a background blocking write and returns [Ok] at once.  The
    outcome of that write is only seen by a later write, flush or sync on
    the same file; [from_buf] does none and drops the file.  So the call
    always succeeds: a background write that fails (the fault schedule at
    this step) leaves the file as it was, one that does not fail is
    applied to the file at this step. *)
Definition file_write_all (path : string) (buf : list Byte.byte) : M unit :=
  s <- get ;;
  modify (log_event (EvFileWrite path)) ;;;
  if faulty s then ret tt
  else modify (fun s => set_fs (fs_put path buf (st_fs s)) s).

(** ** Library functions the code calls and this development does not embed

    md5 (the [md5] crate), [Uuid] parsing, Unicode lower-casing, and the
    [image] crate's decoder, Lanczos3 resize to a 200x200 box and PNG
    encoder.  Decoding and encoding return [None] on an [ImageError]. *)
Class Ext := {
  md5 : list Byte.byte -> Z;
  uuid_parse : string -> option Z;
  to_lowercase : string -> string;
  DynImage : Type;
  load_from_memory : list Byte.byte -> option DynImage;
  resize_200 : DynImage -> DynImage;
  png_encode : DynImage -> option (list Byte.byte)
}.

(** ** String helpers *)

Section Text.
Local Open Scope string_scope.

Definition dq : string := String "034"%char EmptyString.

Fixpoint strip_prefix (p s : string) : option string :=
  match p, s with
  | EmptyString, _ => Some s
  | String a p', String b s' => if Ascii.eqb a b then strip_prefix p' s' else None
  | String _ _, EmptyString => None
  end.

(** An ASCII decimal digit.  The regexes' [\d] is Unicode-aware and also
    matches the other decimal digits (multi-byte in UTF-8); this byte-level
    model of the text covers the ASCII ones only. *)
Definition is_digit (c : ascii) : bool :=
  let n := nat_of_ascii c in Nat.leb 48 n && Nat.leb n 57.

Definition digit_val (c : ascii) : Z := Z.of_nat (nat_of_ascii c) - 48.

(** Decimal text of an integer ([Display] for [i32]). *)
Fixpoint digits_rev (fuel : nat) (n : Z) (acc : string) : string :=
  match fuel with
  | O => acc
  | S f =>
      let acc' := String (ascii_of_nat (48 + Z.to_nat (n mod 10))) acc in
      if Z.ltb n 10 then acc' else digits_rev f (n / 10) acc'
  end.

Definition string_of_Z (z : Z) : string :=
  if Z.ltb z 0 then String "-"%char (digits_rev 64 (- z) EmptyString)
  else digits_rev 64 z EmptyString.

(** [<i32 as FromStr>::from_str]: optional sign, decimal digits, and an
    error on an empty digit string, a non-digit, or a value outside
    [-2^31, 2^31 - 1]. *)
Definition i32_min : Z := - 2147483648.
Definition i32_max : Z := 2147483647.

Fixpoint parse_digits (s : string) (neg : bool) (acc : Z) : option Z :=
  match s with
  | EmptyString => Some acc
  | String c r =>
      if is_digit c then
        let v := if neg then acc * 10 - digit_val c else acc * 10 + digit_val c in
        if Z.leb i32_min v && Z.leb v i32_max then parse_digits r neg v else None
      else None
  end.

Definition parse_i32 (s : string) : option Z :=
  match s with
  | EmptyString => None
  | String c r =>
      if Ascii.eqb c "+"%char then
        match r with EmptyString => None | _ => parse_digits r false 0 end
      else if Ascii.eqb c "-"%char then
        match r with EmptyString => None | _ => parse_digits r true 0 end
      else parse_digits s false 0
  end.

(** ** Markup (Post::html_body) *)

(** maud's HTML escaping of interpolated text. *)
Fixpoint escape (s : string) : string :=
  match s with
  | EmptyString => EmptyString
  | String c r =>
      (if Ascii.eqb c "&"%char then "&amp;"
       else if Ascii.eqb c "<"%char then "&lt;"
       else if Ascii.eqb c ">"%char then "&gt;"
       else if Ascii.eqb c "034"%char then "&quot;"
       else String c EmptyString) ++ escape r
  end.

(** [str::lines]: split at each newline; a line ended by a newline also
    loses one trailing carriage return; no empty line after a final
    newline. *)
Fixpoint break_nl (s : string) : string * option string :=
  match s with
  | EmptyString => (EmptyString, None)
  | String c r =>
      if Ascii.eqb c "010"%char then (EmptyString, Some r)
      else let (l, rest) := break_nl r in (String c l, rest)
  end.

Fixpoint strip_cr (l : string) : string :=
  match l with
  | EmptyString => EmptyString
  | String c EmptyString => if Ascii.eqb c "013"%char then EmptyString else l
  | String c r => String c (strip_cr r)
  end.

Fixpoint lines_aux (fuel : nat) (s : string) : list string :=
  match fuel with
  | O => []
  | S f =>
      match s with
      | EmptyString => []
      | _ =>
          match break_nl s with
          | (l, None) => [l]
          | (l, Some rest) => strip_cr l :: lines_aux f rest
          end
      end
  end.

Definition lines (s : string) : list string := lines_aux (S (String.length s)) s.

(** [line.starts_with('>') && line.chars().nth(1) != Some('>')] *)
Definition is_green_line (l : string) : bool :=
  match l with
  | String c r =>
      Ascii.eqb c ">"%char &&
      negb (match r with String c2 _ => Ascii.eqb c2 ">"%char | EmptyString => false end)
  | EmptyString => false
  end.

(** The [html!] block: one element per line, each followed by [br]. *)
Definition render_line (l : string) : string :=
  (if is_green_line l
   then "<div class=" ++ dq ++ "green-text" ++ dq ++ ">" ++ escape l ++ "</div>"
   else escape l) ++ "<br>".

Definition render_lines (ls : list string) : string :=
  fold_right (fun l acc => render_line l ++ acc) EmptyString ls.

(** Lazy [d(.+?)d] after an opening delimiter: [Some (x, rest)] for the
    shortest non-empty [x] without a newline that is followed by [d]. *)
Fixpoint find_delim (d u : string) : option (string * string) :=
  match strip_prefix d u with
  | Some rest => Some (EmptyString, rest)
  | None =>
      match u with
      | EmptyString => None
      | String c r =>
          if Ascii.eqb c "010"%char then None
          else match find_delim d r with
               | Some (x, rest) => Some (String c x, rest)
               | None => None
               end
      end
  end.

Definition span_at (d s : string) : option (string * string) :=
  match strip_prefix d s with
  | Some (String c u) =>
      if Ascii.eqb c "010"%char then None
      else match find_delim d u with
           | Some (y, rest) => Some (String c y, rest)
           | None => None
           end
  | _ => None
  end.

(** [Regex::replace_all] of [(d)(.+?)(d)] by [open ++ $2 ++ close], leftmost
    first, non-overlapping. *)
Fixpoint replace_span_aux (fuel : nat) (d op cl s : string) : string :=
  match fuel with
  | O => s
  | S f =>
      match s with
      | EmptyString => EmptyString
      | String c r =>
          match span_at d s with
          | Some (x, rest) => op ++ x ++ cl ++ replace_span_aux f d op cl rest
          | None => String c (replace_span_aux f d op cl r)
          end
      end
  end.

Definition replace_span (d op cl s : string) : string :=
  replace_span_aux (String.length s) d op cl s.

(** BOLD_RE and ITALIC_RE. *)
Definition bold_pass (s : string) : string := replace_span "**" "<b>" "</b>" s.
Definition italic_pass (s : string) : string := replace_span "*" "<em>" "</em>" s.

(** REPLY_RE [&gt;&gt;(\d+)] at the head of [s]: the greedy digit run. *)
Fixpoint digit_run (s : string) : string * string :=
  match s with
  | String c r =>
      if is_digit c then let (d, rest) := digit_run r in (String c d, rest)
      else (EmptyString, s)
  | EmptyString => (EmptyString, EmptyString)
  end.

Definition reply_at (s : string) : option (string * string) :=
  match strip_prefix "&gt;&gt;" s with
  | Some t =>
      match digit_run t with
      | (EmptyString, _) => None
      | (d, rest) => Some (d, rest)
      end
  | None => None
  end.

(** [REPLY_RE.captures_iter]: the digit text of every marker, in order. *)
Fixpoint reply_captures_aux (fuel : nat) (s : string) : list string :=
  match fuel with
  | O => []
  | S f =>
      match s with
      | EmptyString => []
      | String _ r =>
          match reply_at s with
          | Some (d, rest) => d :: reply_captures_aux f rest
          | None => reply_captures_aux f r
          end
      end
  end.

Definition reply_captures (s : string) : list string :=
  reply_captures_aux (String.length s) s.

(** [REPLY_RE.replace_all] with a closure that may panic ([None]). *)
Fixpoint reply_replace_aux (fuel : nat) (g : string -> option string) (s : string)
    : option string :=
  match fuel with
  | O => Some s
  | S f =>
      match s with
      | EmptyString => Some EmptyString
      | String c r =>
          match reply_at s with
          | Some (d, rest) =>
              match g d, reply_replace_aux f g rest with
              | Some x, Some y => Some (x ++ y)
              | _, _ => None
              end
          | None =>
              match reply_replace_aux f g r with
              | Some y => Some (String c y)
              | None => None
              end
          end
      end
  end.

Definition reply_replace (g : string -> option string) (s : string) : option string :=
  reply_replace_aux (String.length s) g s.

End Text.

(** ** Monad helpers *)

(** Catch a returned [Err] (but not a panic), as a [match] on a [Result]. *)
Definition attempt {A} (m : M A) : M (Error + A) :=
  fun s => match m s with
           | (ROk a, s') => (ROk (inr a), s')
           | (RErr e, s') => (ROk (inl e), s')
           | (RPanic, s') => (RPanic, s')
           end.

(** Observe every outcome, panics included (Rocket catches handler panics). *)
Definition observe {A} (m : M A) : M (Res A) :=
  fun s => let (r, s') := m s in (ROk r, s').

(** An in-memory step of a library (no I/O, cannot be scheduled to fail). *)
Definition note (ev : Event) : M unit :=
  modify (fun s => {| st_db := st_db s; st_fs := st_fs s; st_trace := ev :: st_trace s;
                      st_clock := st_clock s; st_faults := st_faults s;
                      st_now := st_now s |}).

Section Code.
Local Open Scope string_scope.

(** ** Routes' URIs *)

Definition is_unreserved (c : ascii) : bool :=
  let n := nat_of_ascii c in
  (Nat.leb 48 n && Nat.leb n 57) || (Nat.leb 65 n && Nat.leb n 90) ||
  (Nat.leb 97 n && Nat.leb n 122) || Ascii.eqb c "-"%char ||
  Ascii.eqb c "."%char || Ascii.eqb c "_"%char || Ascii.eqb c "~"%char.

Definition hex_digit (n : Z) : ascii :=
  if Z.ltb n 10 then ascii_of_nat (48 + Z.to_nat n) else ascii_of_nat (87 + Z.to_nat n).

Definition hex_digit_upper (n : Z) : ascii :=
  if Z.ltb n 10 then ascii_of_nat (48 + Z.to_nat n) else ascii_of_nat (55 + Z.to_nat n).

(** The bytes [uri!] leaves as they are in a path segment: the unreserved
    ones and [! $ ' ( ) * , ; : @ [ ]]. *)
Definition is_segment_safe (c : ascii) : bool :=
  is_unreserved c || existsb (Ascii.eqb c)
    ["!"; "$"; "'"; "("; ")"; "*"; ","; ";"; ":"; "@"; "["; "]"]%char.

(** Percent-encoding of a dynamic path segment by [uri!]: every other byte
    becomes [%XX] in upper-case hex. *)
Fixpoint encode_segment (s : string) : string :=
  match s with
  | EmptyString => EmptyString
  | String c r =>
      (if is_segment_safe c then String c EmptyString
       else let n := Z.of_nat (nat_of_ascii c) in
            String "%"%char (String (hex_digit_upper (n / 16))
                              (String (hex_digit_upper (n mod 16)) EmptyString)))
      ++ encode_segment r
  end.

(** [uri!(thread(board, thread))] for the route [/<board>/<thread>]. *)
Definition thread_uri (board : string) (thread : Z) : string :=
  "/" ++ encode_segment board ++ "/" ++ string_of_Z thread.

(** [Display] of a [Uuid]: 32 lower-case hex digits in 8-4-4-4-12 groups. *)
Fixpoint hex_nibbles (k : nat) (z : Z) : string :=
  match k with
  | O => EmptyString
  | S k' => hex_nibbles k' (z / 16) ++ String (hex_digit (z mod 16)) EmptyString
  end.

Definition uuid_to_string (h : Z) : string :=
  hex_nibbles 8 (h / 2 ^ 96) ++ "-" ++ hex_nibbles 4 (h / 2 ^ 80) ++ "-" ++
  hex_nibbles 4 (h / 2 ^ 64) ++ "-" ++ hex_nibbles 4 (h / 2 ^ 48) ++ "-" ++
  hex_nibbles 12 h.

(** ** Post::html_body *)

(** [REPLY_RE.captures_iter(..).map(|c| c[1].parse().unwrap()).collect()] *)
Fixpoint parse_all (ds : list string) : option (list Z) :=
  match ds with
  | [] => Some []
  | d :: ds' =>
      match parse_i32 d, parse_all ds' with
      | Some n, Some ns => Some (n :: ns)
      | _, _ => None
      end
  end.

(** The closure given to [REPLY_RE.replace_all]; [rows] are the [(id, thread)]
    pairs the lookup returned. *)
Definition reply_link (board : string) (rows : list (Z * Z)) (d : string) : option string :=
  match parse_i32 d with
  | None => None
  | Some id =>
      match find (fun r => Z.eqb (fst r) id) rows with
      | Some (_, thread) =>
          Some ("<a href=" ++ dq ++ thread_uri board thread ++ "#" ++ d ++ dq ++
                ">&gt;&gt;" ++ d ++ "</a>")
      | None => Some ("&gt;&gt;" ++ d)
      end
  end.

(** [SELECT id, thread FROM posts WHERE id = ANY($1) AND board = $2] *)
Definition replied_rows (ids : list Z) (board : string) (d : Tables) : list (Z * Z) :=
  map (fun p => (p_id p, p_thread p))
      (filter (fun p => existsb (Z.eqb (p_id p)) ids && String.eqb (p_board p) board)
              (posts d)).

Definition html_body (body : option string) (board : string) : M (string * list Z) :=
  match body with
  | Some body =>
      let body := render_lines (lines body) in
      let body := bold_pass body in
      let body := italic_pass body in
      match parse_all (reply_captures body) with
      | None => panic
      | Some replied =>
          rows <- pool_query (replied_rows replied board) ;;
          match reply_replace (reply_link board rows) body with
          | Some body => ret (body, map fst rows)
          | None => panic
          end
      end
  | None => ret ("<div class=" ++ dq ++ "post-content" ++ dq ++ "></div>", [])
  end.

(** ** Post Sequencer (Post::create_thread, Post::create) *)

(** [UPDATE boards SET next_post_id = next_post_id + 1 WHERE name = $1
    RETURNING next_post_id] on the transaction, with [fetch_one]. *)
Definition tx_next_post_id (tx : list Write) (board : string) : M (list Write * Z) :=
  io_step (Db QueryFailed) EvExec ;;;
  s <- get ;;
  match find (fun b => String.eqb (b_name b) board) (boards (apply_log tx (st_db s))) with
  | None => throw (Db RowNotFound)
  | Some b =>
      if Z.leb (b_next_post_id b + 1) i32_max
      then ret (app tx [WIncr board], b_next_post_id b + 1)
      else throw (Db QueryFailed)
  end.

(** [for message in replied { query!(INSERT INTO replies ...).execute(pool) }] *)
Fixpoint insert_replies (replied : list Z) (mk : Z -> ReplyRow) : M unit :=
  match replied with
  | [] => ret tt
  | m :: rest => pool_exec (WReply (mk m)) ;;; insert_replies rest mk
  end.

Definition now : M Z := s <- get ;; ret (st_now s).

Definition Post_create_thread (board : string) (title author email : option string)
    (sage : bool) (content : option string) (ip : Z) (image : Z) : M Z :=
  tx <- begin_tx ;;
  r <- tx_next_post_id tx board ;;
  let (tx, per_board_id) := r in
  hb <- html_body content board ;;
  let (html_content, replied) := hb in
  t <- now ;;
  tx <- tx_exec tx (WPost {| p_id := per_board_id; p_board := board; p_title := title;
                            p_author := author; p_email := email; p_sage := sage;
                            p_plaintext_content := content; p_html_content := html_content;
                            p_posted_at := t; p_thread := per_board_id; p_ip := ip;
                            p_image := Some image |}) ;;
  insert_replies replied
    (fun message => {| r_message_id := message; r_message_board := board;
                       r_reply_id := per_board_id; r_reply_board := board;
                       r_reply_thread := per_board_id |}) ;;;
  tx_commit tx ;;;
  ret per_board_id.

Definition Post_create (board : string) (thread : Z) (title author email : option string)
    (sage : bool) (content : option string) (ip : Z) (image : option Z) : M Z :=
  tx <- begin_tx ;;
  r <- tx_next_post_id tx board ;;
  let (tx, per_board_id) := r in
  hb <- html_body content board ;;
  let (html_content, replied) := hb in
  t <- now ;;
  pool_exec (WPost {| p_id := per_board_id; p_board := board; p_title := title;
                      p_author := author; p_email := email; p_sage := sage;
                      p_plaintext_content := content; p_html_content := html_content;
                      p_posted_at := t; p_thread := thread; p_ip := ip;
                      p_image := image |}) ;;;
  insert_replies replied
    (fun message => {| r_message_id := message; r_message_board := board;
                       r_reply_id := per_board_id; r_reply_board := board;
                       r_reply_thread := thread |}) ;;;
  tx_commit tx ;;;
  ret per_board_id.

End Code.

(** ** Thread listing (Post::threads_for_board) *)

(** The CTE's rows before grouping: [posts.board = $1 AND (posts.thread =
    posts.id OR NOT posts.sage)]. *)
Definition bump_rows (board : string) (d : Tables) : list PostRow :=
  filter (fun p => String.eqb (p_board p) board &&
                   (Z.eqb (p_thread p) (p_id p) || negb (p_sage p)))
         (posts d).

(** [GROUP BY posts.thread] with [max(posts.posted_at)]. *)
Fixpoint add_to_group (thread t : Z) (g : list (Z * Z)) : list (Z * Z) :=
  match g with
  | [] => [(thread, t)]
  | (th, m) :: g' =>
      if Z.eqb th thread then (th, Z.max m t) :: g' else (th, m) :: add_to_group thread t g'
  end.

Definition group_max (ps : list PostRow) : list (Z * Z) :=
  fold_left (fun g p => add_to_group (p_thread p) (p_posted_at p) g) ps [].

Definition threads_cte (board : string) (d : Tables) : list (Z * Z) :=
  group_max (bump_rows board d).

(** [FROM posts LEFT JOIN threads ON posts.thread = threads.id
    WHERE posts.id = threads.id]: each post with the [last_post] of its
    joined CTE row. *)
Definition joined (board : string) (d : Tables) : list (PostRow * Z) :=
  flat_map (fun p => map (fun t => (p, snd t))
                         (filter (fun t => Z.eqb (p_thread p) (fst t) && Z.eqb (p_id p) (fst t))
                                 (threads_cte board d)))
           (posts d).

(** [ORDER BY threads.last_post DESC]: a stable sort, one of the orders the
    database may return among equal keys. *)
Fixpoint insert_desc (x : PostRow * Z) (l : list (PostRow * Z)) : list (PostRow * Z) :=
  match l with
  | [] => [x]
  | y :: l' => if Z.ltb (snd y) (snd x) then x :: y :: l' else y :: insert_desc x l'
  end.

Definition sort_desc (l : list (PostRow * Z)) : list (PostRow * Z) :=
  fold_right insert_desc [] (rev l).

Definition threads_for_board (board : string) : M (list PostRow) :=
  pool_query (fun d => map fst (sort_desc (joined board d))).

Section WithLibs.
Context {X : Ext}.
Local Open Scope string_scope.

(** ** Image Store (Image::from_buf) *)

Definition image_path (hash : Z) : string := "./images/" ++ uuid_to_string hash.
Definition thumb_path (hash : Z) : string := "./thumbs/" ++ uuid_to_string hash ++ ".png".

Definition Image_from_buf (buf : list Byte.byte) : M Z :=
  let hash := md5 buf in
  maybe <- pool_query (fun d => existsb (Z.eqb hash) (images d)) ;;
  if maybe then ret hash
  else
    file_create (image_path hash) ;;;
    file_write_all (image_path hash) buf ;;;
    note EvDecode ;;;
    match load_from_memory buf with
    | None => throw ImageErr
    | Some image =>
        let image := resize_200 image in
        note EvEncode ;;;
        match png_encode image with
        | None => throw ImageErr
        | Some out =>
            file_create (thumb_path hash) ;;;
            file_write_all (thumb_path hash) out ;;;
            pool_exec (WImage hash) ;;;
            ret hash
        end
    end.

(** ** Captcha::verify *)

(** [DELETE FROM captchas WHERE id = $1 RETURNING solution] with
    [fetch_optional]. *)
Definition delete_captcha_returning (id : Z) : M (option string) :=
  io_step (Db QueryFailed) EvExec ;;;
  s <- get ;;
  let found := find (fun c => Z.eqb (c_id c) id) (captchas (st_db s)) in
  modify (fun s => set_db (apply_write (WDelCaptcha id) (st_db s)) s) ;;;
  ret (option_map c_solution found).

Definition Captcha_verify (id : Z) (answer : string) : M bool :=
  captcha <- delete_captcha_returning id ;;
  match captcha with
  | Some solution => ret (String.eqb solution (to_lowercase answer))
  | None => ret false
  end.

End WithLibs.

(** ** Abuse Gate: the ban guard (NotBanned::from_request) *)

(** Rocket's request-guard outcome. *)
Inductive Outcome (A : Type) :=
| Success (a : A)
| Forward
| Failure (status : Z) (e : Error).
Arguments Success {A} a.
Arguments Forward {A}.
Arguments Failure {A} status e.

(** PostgreSQL's [x <<= y] on IPv4 [inet] values: [x] is contained in or
    equal to the network [y]. *)
Definition inet_contained_eq (x y : IpNetwork) : bool :=
  Z.leb (net_prefix y) (net_prefix x) &&
  Z.eqb (Z.shiftr (net_addr x) (32 - net_prefix y))
        (Z.shiftr (net_addr y) (32 - net_prefix y)).

(** [IpNetwork::from(IpAddr)]: a single address. *)
Definition host_network (ip : Z) : IpNetwork := {| net_addr := ip; net_prefix := 32 |}.

Definition ban_matches (ip : Z) (now : Z) (b : BanRow) : bool :=
  inet_contained_eq (host_network ip) (ban_ip b) &&
  Z.ltb now (ban_created_at b + ban_duration b).

(** [ORDER BY created_at DESC] and [fetch_optional]: the first row. *)
Fixpoint most_recent (l : list BanRow) : option BanRow :=
  match l with
  | [] => None
  | b :: l' =>
      match most_recent l' with
      | Some b' => if Z.ltb (ban_created_at b) (ban_created_at b') then Some b' else Some b
      | None => Some b
      end
  end.

Definition ban_lookup (ip : Z) : M (option BanRow) :=
  io_step (Db QueryFailed) EvQuery ;;;
  s <- get ;;
  ret (most_recent (filter (ban_matches ip (st_now s)) (bans (st_db s)))).

Definition NotBanned_from_request (client_ip : option Z) : M (Outcome unit) :=
  match client_ip with
  | None => panic
  | Some ip =>
      r <- attempt (ban_lookup ip) ;;
      match r with
      | inl e => ret (Failure 500 e)
      | inr (Some ban) => ret (Failure 403 (Banned (ban_reason ban)))
      | inr None => ret (Success tt)
      end
  end.

(** ** The write endpoint (routes/public.rs: create_post) *)

Record PostForm := {
  f_title : option string;
  f_author : option string;
  f_email : option string;
  f_sage : bool;
  f_content : option string;
  f_thread : option Z;
  f_board : string;
  f_image : option (list Byte.byte);
  f_captcha : option string
}.

Section Handler.
Context {X : Ext}.

(** The handler body; it returns the redirect target. *)
Definition create_post (form : PostForm) (ip : Z) (captcha_cookie : option string)
    : M string :=
  v <- (match captcha_cookie with
        | Some v => ret v
        | None => throw MissingOrInvalidCaptchaID
        end) ;;
  captcha_id <- (match uuid_parse v with
                 | Some u => ret u
                 | None => throw MissingOrInvalidCaptchaID
                 end) ;;
  answer <- (match f_captcha form with
             | Some a => ret a
             | None => panic
             end) ;;
  ok <- Captcha_verify captcha_id answer ;;
  if negb ok then throw MissingOrInvalidCaptchaID
  else
    image <- (match f_image form with
              | Some file => i <- Image_from_buf file ;; ret (Some i)
              | None => ret None
              end) ;;
    id <- (match f_thread form with
           | Some thread =>
               Post_create (f_board form) thread (f_title form) (f_author form)
                 (f_email form) (f_sage form) (f_content form) ip image ;;;
               ret thread
           | None =>
               match image with
               | Some image =>
                   Post_create_thread (f_board form) (f_title form) (f_author form)
                     (f_email form) (f_sage form) (f_content form) ip image
               | None => throw MissingImage
               end
           end) ;;
    ret (thread_uri (f_board form) id).

(** ** Rocket's dispatch of [POST /submit]

    Request guards run left to right ([&State<PgPool>], [IpAddr],
    [NotBanned], [&CookieJar]), then the data guard [Form<PostForm>], then
    the handler.  A [Forward] ends at the 404 catcher, a guard [Failure]
    at the catcher of its status, a handler [Err] is rendered by
    [Error::respond_to], and a handler panic becomes a 500 response. *)

Record Request := {
  rq_client_ip : option Z;
  rq_captcha_cookie : option string;
  rq_form : option PostForm           (* [None]: the form did not parse *)
}.

Inductive Body := CatcherPage | ErrorPage (e : Error) | RedirectTo (uri : string).

Record Response := { status : Z; body : Body }.

(** What follows the request guards: the data guard, then the handler. *)
Definition handle_form (rq : Request) (ip : Z) : M Response :=
  match rq_form rq with
  | None => ret {| status := 422; body := CatcherPage |}
  | Some form =>
      r <- observe (create_post form ip (rq_captcha_cookie rq)) ;;
      match r with
      | ROk uri => ret {| status := 303; body := RedirectTo uri |}
      | RErr e => ret {| status := respond_to_status e; body := ErrorPage e |}
      | RPanic => ret {| status := 500; body := CatcherPage |}
      end
  end.

Definition route_create_post (rq : Request) : M Response :=
  match rq_client_ip rq with
  | None => ret {| status := 404; body := CatcherPage |}
  | Some ip =>
      g <- NotBanned_from_request (Some ip) ;;
      match g with
      | Failure st _ => ret {| status := st; body := CatcherPage |}
      | Forward => ret {| status := 404; body := CatcherPage |}
      | Success _ => handle_form rq ip
      end
  end.

End Handler.

(** ** More of models.rs: boards, threads, replies, captchas, form fields *)

(** A statement on the pool that changes the committed tables by [f]. *)
Definition pool_exec_with (f : Tables -> Tables) : M unit :=
  io_step (Db QueryFailed) EvExec ;;; modify (fun s => set_db (f (st_db s)) s).

(** Sequencing an effect over a list, as a [for] loop whose body uses [?]. *)
Fixpoint mapM {A B} (f : A -> M B) (l : list A) : M (list B) :=
  match l with
  | [] => ret []
  | x :: l' => y <- f x ;; ys <- mapM f l' ;; ret (y :: ys)
  end.

Record Board := { board_name : string; board_title : string }.

Definition board_of_row (b : BoardRow) : Board :=
  {| board_name := b_name b; board_title := b_title b |}.

(** [Board::get]: [SELECT name, title FROM boards WHERE name = $1] with
    [fetch_optional] (the first row). *)
Definition Board_get (name : string) : M (option Board) :=
  pool_query (fun d => option_map board_of_row
                         (find (fun b => String.eqb (b_name b) name) (boards d))).

Section BoardCreate.
(** The default of the [next_post_id] column, set by the migrations (which
    are not among the repository's files). *)
Variable next_post_id_default : Z.

(** [Board::create]: [INSERT INTO boards(name, title) VALUES ($1, $2)]. *)
Definition Board_create (name title : string) : M unit :=
  pool_exec_with (fun d =>
    {| boards := boards d ++ [{| b_name := name; b_title := title;
                                 b_next_post_id := next_post_id_default |}];
       posts := posts d; replies := replies d; images := images d;
       bans := bans d; captchas := captchas d |}).

End BoardCreate.

(** [Post::for_thread]: [SELECT * FROM posts WHERE thread = $1 AND board = $2],
    and [NotFound] for an empty result. *)
Definition Post_for_thread (board : string) (id : Z) : M (list PostRow) :=
  res <- pool_query (fun d => filter (fun p => Z.eqb (p_thread p) id &&
                                               String.eqb (p_board p) board) (posts d)) ;;
  match res with
  | [] => throw NotFound
  | _ => ret res
  end.

Record Reply := { reply_id : Z; reply_board : string; reply_thread : Z }.

Definition reply_of_row (r : ReplyRow) : Reply :=
  {| reply_id := r_reply_id r; reply_board := r_reply_board r;
     reply_thread := r_reply_thread r |}.

(** [Post::replies]: [SELECT reply_id, reply_board, reply_thread FROM replies
    WHERE message_id = $1 AND message_board = $2]. *)
Definition Post_replies (p : PostRow) : M (list Reply) :=
  pool_query (fun d => map reply_of_row
                         (filter (fun r => Z.eqb (r_message_id r) (p_id p) &&
                                           String.eqb (r_message_board r) (p_board p))
                                 (replies d))).

(** The numbers of the reply markers of a body, as [html_body] parses them
    ([None]: a parse that panics). *)
Definition reply_marker_ids (body : option string) : option (list Z) :=
  match body with
  | Some b => parse_all (reply_captures (italic_pass (bold_pass (render_lines (lines b)))))
  | None => Some []
  end.

(** A computation that never returns the error [e]. *)
Definition never_err {A} (e : Error) (m : M A) : Prop :=
  forall s, fst (m s) <> RErr e.

(** A form field's value: [inl] is a form error with its message. *)
Definition FormResult (A : Type) : Type := (string + A)%type.

(** [NonEmptyStr::from_value]. *)
Definition NonEmptyStr_from_value (v : string) : FormResult string :=
  if String.eqb v EmptyString then inl "Empty NonEmptyStr"%string else inr v.

Record Captcha := { captcha_id : Z; base64image : string; solution : string }.

Section MoreLibs.
Context {X : Ext}.
Local Open Scope string_scope.

(** [Captcha::new]: [id] is the fresh [Uuid::new_v4()], [chars] the text
    the captcha crate drew, [base64] its [as_base64()] (unwrapped). *)
Definition Captcha_new (id : Z) (chars : string) (base64 : option string) : M Captcha :=
  match base64 with
  | None => panic
  | Some img =>
      let sol := to_lowercase chars in
      pool_exec_with (fun d =>
        {| boards := boards d; posts := posts d; replies := replies d;
           images := images d; bans := bans d;
           captchas := captchas d ++ [{| c_id := id; c_solution := sol |}] |}) ;;;
      ret {| captcha_id := id; base64image := img; solution := sol |}
  end.

(** ** The pages (routes/public.rs: board, thread, post_body)

    The markup is represented by what it interpolates that comes from the
    database or from a computation of the code: the board, the arguments of
    [post_form], the links of each post, and the [captcha_id] cookie set. *)

Record PostBody := {
  pb_post : PostRow;
  pb_self_href : string;                        (* [.id a href] *)
  pb_image_links : option (string * string);    (* [.image a href], [img src] *)
  pb_reply_links : list (string * string)       (* [.replies a]: href, text *)
}.

Definition post_body (post : PostRow) : M PostBody :=
  rs <- Post_replies post ;;
  ret {| pb_post := post;
         pb_self_href := thread_uri (p_board post) (p_thread post) ++ "#" ++
                         string_of_Z (p_id post);
         pb_image_links :=
           option_map (fun img => ("/images/" ++ uuid_to_string img,
                                   "/thumbs/" ++ uuid_to_string img ++ ".png"))
                      (p_image post);
         pb_reply_links :=
           map (fun r => (thread_uri (reply_board r) (reply_thread r) ++ "#" ++
                          string_of_Z (reply_id r),
                          "&gt;&gt;" ++ string_of_Z (reply_id r))) rs |}.

Record Page := {
  pg_board : Board;
  pg_form : string * option Z * option string;  (* [post_form]'s arguments *)
  pg_posts : list PostBody;
  pg_cookie : string                            (* the [captcha_id] cookie *)
}.

(** [GET /<board>]; [cid], [chars] and [base64] are [Captcha::new]'s random
    draws. *)
Definition board_route (name : string) (cid : Z) (chars : string)
    (base64 : option string) : M Page :=
  b <- Board_get name ;;
  match b with
  | None => throw NotFound
  | Some board =>
      captcha <- Captcha_new cid chars base64 ;;
      heads <- threads_for_board (board_name board) ;;
      bodies <- mapM post_body heads ;;
      ret {| pg_board := board;
             pg_form := (board_name board, None, Some (base64image captcha));
             pg_posts := bodies;
             pg_cookie := uuid_to_string (captcha_id captcha) |}
  end.

(** [GET /<board>/<thread>]. *)
Definition thread_route (name : string) (thread : Z) (cid : Z) (chars : string)
    (base64 : option string) : M Page :=
  b <- Board_get name ;;
  match b with
  | None => throw NotFound
  | Some board =>
      ps <- Post_for_thread (board_name board) thread ;;
      captcha <- Captcha_new cid chars base64 ;;
      bodies <- mapM post_body ps ;;
      ret {| pg_board := board;
             pg_form := (board_name board, Some thread, Some (base64image captcha));
             pg_posts := bodies;
             pg_cookie := uuid_to_string (captcha_id captcha) |}
  end.

End MoreLibs.

(** ** Administration (models.rs: Session, AdminPrivilege; routes/admin.rs) *)

Record SessionRow := { se_id : Z; se_uid : Z; se_logged_in_at : Z }.

Section Admin.
Context {X : Ext}.
Local Open Scope string_scope.

(** The [sessions] table; no code of the repository writes it
    ([Session::new] stops at [todo!()] before its INSERT). *)
Variable sessions : list SessionRow.

(** [Session::get]: [SELECT * FROM sessions WHERE id = $1], [fetch_optional]. *)
Definition Session_get (id : Z) : M (option SessionRow) :=
  pool_query (fun _ => find (fun se => Z.eqb (se_id se) id) sessions).

(** [AdminPrivilege::from_request]; [session_cookie] is the value of the
    private [sessionid] cookie, when it is present and decrypts. *)
Definition AdminPrivilege_from_request (session_cookie : option string) : M (Outcome Z) :=
  match option_map uuid_parse session_cookie with
  | Some (Some session) =>
      r <- attempt (Session_get session) ;;
      match r with
      | inr (Some se) => ret (Success (se_uid se))
      | _ => ret Forward
      end
  | _ => ret Forward
  end.

(** A two-field form of [NonEmptyStr]s ([BoardForm], [LoginForm]): each raw
    field value, [None] when absent. *)
Definition two_field_form (a b : option string) : option (string * string) :=
  match a, b with
  | Some a, Some b =>
      match NonEmptyStr_from_value a, NonEmptyStr_from_value b with
      | inr a, inr b => Some (a, b)
      | _, _ => None
      end
  | _, _ => None
  end.

Record AdminRequest := {
  ar_session_cookie : option string;
  ar_field1 : option string;    (* [name] *)
  ar_field2 : option string     (* [title] or [password] *)
}.

(** A handler's [Result<Redirect, Error>] as a response. *)
Definition respond_redirect (m : M string) : M Response :=
  r <- observe m ;;
  match r with
  | ROk uri => ret {| status := 303; body := RedirectTo uri |}
  | RErr e => ret {| status := respond_to_status e; body := ErrorPage e |}
  | RPanic => ret {| status := 500; body := CatcherPage |}
  end.

(** [POST /admin/submit] ([create_board]): the request guard
    [AdminPrivilege], then the data guard [Form<BoardForm>], then the
    handler; no other route matches a forwarded request. *)
Definition route_create_board (dflt : Z) (rq : AdminRequest) : M Response :=
  g <- AdminPrivilege_from_request (ar_session_cookie rq) ;;
  match g with
  | Forward => ret {| status := 404; body := CatcherPage |}
  | Failure st _ => ret {| status := st; body := CatcherPage |}
  | Success _ =>
      match two_field_form (ar_field1 rq) (ar_field2 rq) with
      | None => ret {| status := 422; body := CatcherPage |}
      | Some (name, title) =>
          respond_redirect (Board_create dflt name title ;;; ret ("/" ++ encode_segment name))
      end
  end.

(** [POST /admin/login] ([login]): the request guard [AdminPrivilege], then
    (Rocket runs the data guard after every request guard) [Form<LoginForm>];
    the handler redirects to [/admin]. *)
Definition route_login (rq : AdminRequest) : M Response :=
  g <- AdminPrivilege_from_request (ar_session_cookie rq) ;;
  match g with
  | Forward => ret {| status := 404; body := CatcherPage |}
  | Failure st _ => ret {| status := st; body := CatcherPage |}
  | Success _ =>
      match two_field_form (ar_field1 rq) (ar_field2 rq) with
      | None => ret {| status := 422; body := CatcherPage |}
      | Some _ => respond_redirect (ret "/admin")
      end
  end.

End Admin.

(** ** Concrete inputs *)

Section Samples.
Local Open Scope string_scope.

Fixpoint ascii_lowercase (s : string) : string :=
  match s with
  | EmptyString => EmptyString
  | String c r =>
      let n := nat_of_ascii c in
      String (if Nat.leb 65 n && Nat.leb n 90 then ascii_of_nat (n + 32) else c)
             (ascii_lowercase r)
  end.

(** A stand-in for the libraries: a toy digest, a parser accepting any
    non-empty token as the id 7, ASCII lower-casing, and an "image" format
    where every non-empty buffer decodes and the thumbnail is the buffer. *)
Definition sample_libs : Ext := {|
  md5 := fun bs => Z.of_nat (List.length bs);
  uuid_parse := fun s => if String.eqb s EmptyString then None else Some 7;
  to_lowercase := ascii_lowercase;
  DynImage := list Byte.byte;
  load_from_memory := fun bs => match bs with [] => None | _ => Some bs end;
  resize_200 := fun i => i;
  png_encode := fun i => Some i
|}.

Definition sample_post (board : string) (id thread : Z) (sage : bool) (t : Z) : PostRow :=
  {| p_id := id; p_board := board; p_title := None; p_author := None;
     p_email := None; p_sage := sage; p_plaintext_content := None;
     p_html_content := ""; p_posted_at := t; p_thread := thread; p_ip := 0;
     p_image := None |}.

(** Boards "b" and "a", each with a thread opened by its post 1. *)
Definition sample_tables : Tables := {|
  boards := [{| b_name := "b"; b_title := "B"; b_next_post_id := 1 |};
             {| b_name := "a"; b_title := "A"; b_next_post_id := 1 |}];
  posts := [sample_post "b" 1 1 false 10; sample_post "a" 1 1 false 20];
  replies := [];
  images := [3];
  bans := [{| ban_ip := {| net_addr := 167772160; net_prefix := 8 |};
              ban_reason := "spam"; ban_created_at := 50; ban_duration := 100 |}];
  captchas := [{| c_id := 7; c_solution := "abc" |}]
|}.

Definition sample_state (faults : list nat) : St := {|
  st_db := sample_tables; st_fs := []; st_trace := []; st_clock := 0;
  st_faults := faults; st_now := 100
|}.

Definition sample_form (thread : option Z) (image : option (list Byte.byte))
    (captcha : option string) : PostForm := {|
  f_title := None; f_author := None; f_email := None; f_sage := false;
  f_content := Some ">>1"; f_thread := thread; f_board := "b";
  f_image := image; f_captcha := captcha
|}.

(** 10.0.0.5, inside the banned 10.0.0.0/8, and 192.168.0.1, outside it. *)
Definition banned_ip : Z := 167772165.
Definition free_ip : Z := 3232235521.

Definition sample_request (ip : Z) : Request := {|
  rq_client_ip := Some ip; rq_captcha_cookie := Some "t";
  rq_form := Some (sample_form None None (Some "ABC"))
|}.

Definition no_captchas : St :=
  set_db {| boards := boards sample_tables; posts := posts sample_tables;
            replies := replies sample_tables; images := images sample_tables;
            bans := bans sample_tables; captchas := [] |} (sample_state []).

End Samples.

(** * Theorems *)

Section Concrete.
Local Open Scope string_scope.

Definition next_post_id_of (board : string) (d : Tables) : option Z :=
  option_map b_next_post_id (find (fun b => String.eqb (b_name b) board) (boards d)).

Definition has_post (board : string) (id : Z) (d : Tables) : bool :=
  existsb (fun p => String.eqb (p_board p) board && Z.eqb (p_id p) id) (posts d).

Definition post_count (board : string) (id : Z) (d : Tables) : nat :=
  List.length (filter (fun p => String.eqb (p_board p) board && Z.eqb (p_id p) id) (posts d)).

(** The element id [post_body] gives a post ([.post id=(post.id())]). *)
Definition post_element_id (p : PostRow) : string := string_of_Z (p_id p).


End Concrete.

Section ConcreteRuns.
Local Open Scope string_scope.

(** C1 (code bug): [Post::create] inserts the post row and the reply edges
    on the pool, outside its transaction, and [Post::create_thread] inserts
    the reply edges on the pool.  With the commit failing (I/O step 5), the
    counter increment is rolled back, but [Post::create] leaves the post
    (b, 2) and its reply edge visible, and a retry is given id 2 again, so
    board b ends with two posts 2; [Post::create_thread] leaves a reply edge
    to a post that does not exist. *)
Theorem C1_writes_outside_transaction :
  (let (r, s) := Post_create "b" 1 None None None false (Some ">>1") 0 None
                   (sample_state [5%nat]) in
   r = RErr (Db QueryFailed) /\ next_post_id_of "b" (st_db s) = Some 1 /\
   has_post "b" 2 (st_db s) = true /\ replies (st_db s) <> [] /\
   (let (r2, s2) := Post_create "b" 1 None None None false None 0 None s in
    r2 = ROk 2 /\ post_count "b" 2 (st_db s2) = 2%nat)) /\
  (let (r, s) := Post_create_thread "b" None None None false (Some ">>1") 0 3
                   (sample_state [5%nat]) in
   r = RErr (Db QueryFailed) /\ next_post_id_of "b" (st_db s) = Some 1 /\
   has_post "b" 2 (st_db s) = false /\
   map r_reply_id (replies (st_db s)) = [2]).
Proof.
  vm_compute. repeat split; try reflexivity; discriminate.
Qed.

(** C3 (code bug): a marker whose digits do not fit an [i32] makes
    [html_body] panic, whatever posts exist; and a resolved marker written
    with a leading zero links to the fragment [#01], while the post's
    element id is [1]. *)
Theorem C3_marker_rendering_defects :
  fst (html_body (Some ">>01") "b" (sample_state [])) =
    ROk ("<a href=" ++ dq ++ "/b/1#01" ++ dq ++ ">&gt;&gt;01</a><br>", [1]) /\
  post_element_id (sample_post "b" 1 1 false 10) = "1" /\
  fst (html_body (Some ">>1 >>2147483648") "b" (sample_state [])) = RPanic.
Proof.
  vm_compute. repeat split; reflexivity.
Qed.

(** C7 (code bug): the outer query of [threads_for_board] does not restrict
    [posts.board], so the thread root 1 of board "a" is listed among the
    threads of board "b", which has a thread with the same number. *)
Theorem C7_listing_leaks_other_boards :
  exists l, fst (threads_for_board "b" (sample_state [])) = ROk l /\
            List.length l = 2%nat /\
            In (sample_post "a" 1 1 false 20) l /\
            existsb (fun p => negb (String.eqb (p_board p) "b")) l = true.
Proof.
  eexists. split; [vm_compute; reflexivity |].
  vm_compute. repeat split; auto.
Qed.

(** C10 (code bug): the digit run of [>>2147483648] is captured by
    REPLY_RE, does not parse as an [i32], and [html_body] panics. *)
Theorem C10_overflowing_marker_panics :
  reply_captures (italic_pass (bold_pass (render_lines (lines ">>2147483648")))) =
    ["2147483648"] /\
  parse_i32 "2147483648" = None /\
  fst (html_body (Some ">>2147483648") "b" (sample_state [])) = RPanic.
Proof.
  vm_compute. repeat split; reflexivity.
Qed.


End ConcreteRuns.

(** ** Facts about the store primitives *)

Lemma find_filter_removed (id : Z) (l : list CaptchaRow) :
  find (fun c => Z.eqb (c_id c) id) (filter (fun c => negb (Z.eqb (c_id c) id)) l) = None.
Proof.
  induction l as [| c l IH]; simpl; auto.
  destruct (Z.eqb (c_id c) id) eqn:E; simpl; try rewrite E; auto.
Qed.

Section General.
Context {X : Ext}.

(** C2 (code bug): with a [captcha_id] cookie that parses and no [captcha]
    form field, [form.captcha().unwrap()] panics before any I/O. *)
Theorem C2_missing_captcha_answer_panics (form : PostForm) (ip : Z) (v : string)
    (u : Z) (s : St) (Hparse : uuid_parse v = Some u) (Hnone : f_captcha form = None) :
  create_post form ip (Some v) s = (RPanic, s).
Proof.
  unfold create_post, bind, ret. cbn beta iota. rewrite Hparse. cbn beta iota.
  rewrite Hnone. reflexivity.
Qed.

(** C6: a [Captcha::verify] whose DELETE statement succeeds deletes every
    challenge row with the id, leaves the other tables alone, and returns
    whether a row existed whose solution equals the lower-cased answer; a
    later verify of the same id (whose statement succeeds) returns false,
    whatever the answer. *)
Theorem C6_verify_consumes_once (id : Z) (answer : string) (s : St)
    (Hio : faulty s = false) :
  let (r, s') := Captcha_verify id answer s in
  r = ROk (match find (fun c => Z.eqb (c_id c) id) (captchas (st_db s)) with
           | Some c => String.eqb (c_solution c) (to_lowercase answer)
           | None => false
           end) /\
  captchas (st_db s') = filter (fun c => negb (Z.eqb (c_id c) id)) (captchas (st_db s)) /\
  boards (st_db s') = boards (st_db s) /\ posts (st_db s') = posts (st_db s) /\
  replies (st_db s') = replies (st_db s) /\ images (st_db s') = images (st_db s) /\
  bans (st_db s') = bans (st_db s) /\
  (forall answer', faulty s' = false -> fst (Captcha_verify id answer' s') = ROk false).
Proof.
  unfold Captcha_verify, delete_captcha_returning, bind, io_step, get, modify, ret.
  rewrite Hio. cbn -[faulty].
  destruct (find (fun c => Z.eqb (c_id c) id) (captchas (st_db s)));
    cbn -[faulty]; repeat split;
    intros answer' Hio'; rewrite Hio'; cbn -[faulty];
    rewrite find_filter_removed; reflexivity.
Qed.

End General.

(** ** Facts about the file map *)

Lemma fs_lookup_put_same (p : string) (c : list Byte.byte) fs :
  fs_lookup p (fs_put p c fs) = Some c.
Proof. unfold fs_lookup, fs_put. simpl. rewrite String.eqb_refl. reflexivity. Qed.

Lemma find_filter_other (p q : string) (fs : list (string * list Byte.byte)) :
  p <> q ->
  find (fun pc => String.eqb (fst pc) p)
       (filter (fun pc => negb (String.eqb (fst pc) q)) fs) =
  find (fun pc => String.eqb (fst pc) p) fs.
Proof.
  intros Hpq. induction fs as [| [k c] fs IH]; simpl; auto.
  destruct (String.eqb_spec k q) as [-> | Hkq]; simpl.
  - assert (Hqp : String.eqb q p = false) by (apply String.eqb_neq; congruence).
    rewrite Hqp. exact IH.
  - destruct (String.eqb k p); auto.
Qed.

Lemma fs_lookup_put_other (p q : string) (c : list Byte.byte) fs :
  p <> q -> fs_lookup p (fs_put q c fs) = fs_lookup p fs.
Proof.
  intros Hpq. unfold fs_lookup, fs_put. simpl.
  assert (Hqp : String.eqb q p = false) by (apply String.eqb_neq; congruence).
  rewrite Hqp, find_filter_other by exact Hpq. reflexivity.
Qed.

Lemma image_thumb_paths_differ (h h' : Z) : image_path h <> thumb_path h'.
Proof. unfold image_path, thumb_path. simpl. intro H. inversion H. Qed.

Lemma existsb_Zeqb_In (h : Z) (l : list Z) : In h l -> existsb (Z.eqb h) l = true.
Proof.
  intros Hin. apply existsb_exists. exists h. split; [exact Hin | apply Z.eqb_refl].
Qed.

Lemma In_existsb_Zeqb (h : Z) (l : list Z) : existsb (Z.eqb h) l = true -> In h l.
Proof.
  intros He. apply existsb_exists in He as [x [Hin Hx]].
  apply Z.eqb_eq in Hx. subst. exact Hin.
Qed.

(** Case analysis over the I/O steps and library results of a run. *)
Ltac io_cases :=
  repeat (cbn -[faulty image_path thumb_path fs_put] in *;
          match goal with
          | |- context [if faulty ?s then _ else _] => destruct (faulty s)
          | |- context [match load_from_memory ?b with _ => _ end] =>
              destruct (load_from_memory b) eqn:?
          | |- context [match png_encode ?i with _ => _ end] =>
              destruct (png_encode i) eqn:?
          end).

Section ImageStore.
Context {X : Ext}.

(** When the digest of [buf] already has an images row, [from_buf]
    performs only the existence query. *)
Lemma from_buf_existing_row (buf : list Byte.byte) (s : St)
    (Hrow : In (md5 buf) (images (st_db s))) :
  let (r, s') := Image_from_buf buf s in
  (faulty s = false -> r = ROk (md5 buf)) /\
  (faulty s = true -> r = RErr (Db QueryFailed)) /\
  st_db s' = st_db s /\ st_fs s' = st_fs s /\ st_trace s' = EvQuery :: st_trace s.
Proof.
  unfold Image_from_buf, pool_query, bind, io_step, get, ret.
  destruct (faulty s); cbn -[faulty];
    [| rewrite (existsb_Zeqb_In _ _ Hrow); cbn]; repeat split; congruence.
Qed.

(** A successful [from_buf] returns the digest of the buffer and leaves its
    images row in place. *)
Lemma from_buf_ok_records (buf : list Byte.byte) (s s' : St) (h : Z) :
  Image_from_buf buf s = (ROk h, s') -> h = md5 buf /\ In h (images (st_db s')).
Proof.
  unfold Image_from_buf, pool_query, pool_exec, file_create, file_write_all, note,
    bind, io_step, get, modify, ret, throw.
  destruct (faulty s); cbn -[faulty]; [intros H; discriminate H |].
  destruct (existsb (Z.eqb (md5 buf)) (images (st_db s))) eqn:Ex.
  - intros H. inversion H; subst. split; [reflexivity |].
    apply In_existsb_Zeqb. exact Ex.
  - io_cases; intros H; try discriminate H;
      inversion H; subst; split; try reflexivity;
      cbn; apply in_or_app; right; left; reflexivity.
Qed.

(** Storing the same bytes twice: once the first call has succeeded, the
    second performs no decode and no write. *)
Lemma from_buf_twice (buf : list Byte.byte) (s s1 : St) (h : Z) :
  Image_from_buf buf s = (ROk h, s1) ->
  let (r2, s2) := Image_from_buf buf s1 in
  (faulty s1 = false -> r2 = ROk h) /\
  st_db s2 = st_db s1 /\ st_fs s2 = st_fs s1 /\ st_trace s2 = EvQuery :: st_trace s1.
Proof.
  intros H1. destruct (from_buf_ok_records _ _ _ _ H1) as [-> Hin].
  pose proof (from_buf_existing_row buf s1 Hin) as H2.
  destruct (Image_from_buf buf s1) as [r2 s2].
  destruct H2 as (Hok & _ & Hdb & Hfs & Htr). auto.
Qed.

(** C5: when the digest of [buf] already has an images row, [from_buf]
    performs only the existence query: the tables, the files and the
    record of I/O are otherwise unchanged (no decode, no file write), and
    the result is the digest itself (or the query's database error when
    that statement fails); and after a first successful call on [buf], a
    second call on [buf] is such a no-op returning the same digest. *)
Theorem C5_from_buf_dedup (buf : list Byte.byte) (s : St)
    (Hrow : In (md5 buf) (images (st_db s))) :
  (let (r, s') := Image_from_buf buf s in
   (faulty s = false -> r = ROk (md5 buf)) /\
   (faulty s = true -> r = RErr (Db QueryFailed)) /\
   st_db s' = st_db s /\ st_fs s' = st_fs s /\ st_trace s' = EvQuery :: st_trace s) /\
  (forall s0 s1 h, Image_from_buf buf s0 = (ROk h, s1) ->
   h = md5 buf /\
   let (r2, s2) := Image_from_buf buf s1 in
   (faulty s1 = false -> r2 = ROk h) /\
   st_db s2 = st_db s1 /\ st_fs s2 = st_fs s1 /\ st_trace s2 = EvQuery :: st_trace s1).
Proof.
  split; [exact (from_buf_existing_row buf s Hrow) |].
  intros s0 s1 h H1. split; [exact (proj1 (from_buf_ok_records _ _ _ _ H1)) |].
  exact (from_buf_twice buf s0 s1 h H1).
Qed.

End ImageStore.

(** C4 (code bug): [from_buf] does not store the files before recording
    the digest.  [write_all] only starts the write and its failure is never
    reported, so the row is inserted whether or not the bytes reach the
    files.  Storing the new two-byte buffer (digest 2) from the sample
    state: with no I/O failure, the original and the thumbnail hold the
    bytes and the row is inserted; when the background writes of both the
    original (I/O step 2) and the thumbnail (I/O step 4) fail, the call
    returns the same [Ok] and inserts the same row, while both files are
    left empty, as [File::create] made them. *)
Theorem C4_row_recorded_after_lost_writes :
  (let (r, s') := @Image_from_buf sample_libs [Byte.x01; Byte.x02] (sample_state []) in
   r = ROk 2 /\ In 2 (images (st_db s')) /\
   fs_lookup (image_path 2) (st_fs s') = Some [Byte.x01; Byte.x02] /\
   fs_lookup (thumb_path 2) (st_fs s') = Some [Byte.x01; Byte.x02]) /\
  (let (r, s') := @Image_from_buf sample_libs [Byte.x01; Byte.x02] (sample_state [2%nat; 4%nat]) in
   r = ROk 2 /\ In 2 (images (st_db s')) /\
   fs_lookup (image_path 2) (st_fs s') = Some [] /\
   fs_lookup (thumb_path 2) (st_fs s') = Some [] /\
   st_trace s' = [EvExec; EvFileWrite (thumb_path 2); EvFileCreate (thumb_path 2);
                  EvEncode; EvDecode; EvFileWrite (image_path 2);
                  EvFileCreate (image_path 2); EvQuery]).
Proof.
  vm_compute. repeat split; auto 10.
Qed.

(** ** The ban guard *)

Lemma most_recent_spec (l : list BanRow) :
  l <> [] ->
  exists b, most_recent l = Some b /\ In b l /\
            forall b', In b' l -> ban_created_at b' <= ban_created_at b.
Proof.
  induction l as [| b l IH]; intros Hne; [congruence |].
  simpl. destruct l as [| b2 l'].
  - exists b. simpl. repeat split; auto. intros b' [<- | []]. lia.
  - destruct IH as (m & Hm & Hin & Hmax); [discriminate |].
    rewrite Hm. destruct (Z.ltb_spec (ban_created_at b) (ban_created_at m)).
    + exists m. repeat split; auto.
      intros b' [<- | Hb']; [lia | auto].
    + exists b. repeat split; auto.
      intros b' [<- | Hb']; [lia | specialize (Hmax b' Hb'); lia].
Qed.

Section Gate.
Context {X : Ext}.

(** C8 (code bug): a banned address is not answered with a successful
    response carrying the ban's reason.  For a request with a client
    address whose ban lookup succeeds, when some ban whose network contains
    the address has [created_at + duration > now], the guard fails with
    status 403 (Forbidden) and [Banned] carrying the reason of the most
    recent such ban, and Rocket answers with the 403 catcher's page, the
    reason dropped, with nothing run after the lookup; the mapping of
    [Banned] to 200 with the reason in [Error::respond_to] is never reached
    on this path.  When there is no such ban, the route goes on to the form
    and the handler; a failed lookup is answered with 500 before the
    handler. *)
Theorem C8_ban_guard (rq : Request) (ip : Z) (s : St) (Hip : rq_client_ip rq = Some ip) :
  (faulty s = false ->
   filter (ban_matches ip (st_now s)) (bans (st_db s)) <> [] ->
   exists ban,
     In ban (filter (ban_matches ip (st_now s)) (bans (st_db s))) /\
     (forall b', In b' (filter (ban_matches ip (st_now s)) (bans (st_db s))) ->
                 ban_created_at b' <= ban_created_at ban) /\
     NotBanned_from_request (Some ip) s =
       (ROk (Failure 403 (Banned (ban_reason ban))), log_event EvQuery s) /\
     route_create_post rq s =
       (ROk {| status := 403; body := CatcherPage |}, log_event EvQuery s)) /\
  (faulty s = false ->
   filter (ban_matches ip (st_now s)) (bans (st_db s)) = [] ->
   route_create_post rq s = handle_form rq ip (log_event EvQuery s)) /\
  (faulty s = true ->
   route_create_post rq s =
     (ROk {| status := 500; body := CatcherPage |}, log_event EvQuery s)) /\
  (forall reason, respond_to_status (Banned reason) = 200).
Proof.
  unfold route_create_post. rewrite Hip.
  unfold NotBanned_from_request, attempt, ban_lookup, bind, io_step, get, ret.
  repeat split.
  - intros Hio Hne. rewrite Hio. cbn -[faulty handle_form].
    destruct (most_recent_spec _ Hne) as (b & Hb & Hin & Hmax).
    exists b. repeat split; auto.
    + unfold log_event at 2. cbn -[faulty handle_form]. rewrite Hb. reflexivity.
    + unfold log_event at 2. cbn -[faulty handle_form]. rewrite Hb. reflexivity.
  - intros Hio Hnil. rewrite Hio. cbn -[faulty handle_form].
    unfold log_event at 2. cbn -[faulty handle_form]. rewrite Hnil. reflexivity.
  - intros Hio. rewrite Hio. reflexivity.
Qed.

End Gate.

(** ** Which errors the store operations can return *)













Section Missing.
Context {X : Ext}.



End Missing.

Section Endpoint.
Context {X : Ext}.



End Endpoint.

(** ** Witnesses *)

Section Witnesses.
Local Open Scope string_scope.

Lemma C2_missing_captcha_answer_panics_witness :
  @create_post sample_libs (sample_form None None None) free_ip (Some "t") (sample_state []) =
  (RPanic, sample_state []).
Proof.
  apply (@C2_missing_captcha_answer_panics sample_libs _ _ "t" 7); reflexivity.
Defined.

Lemma C5_from_buf_dedup_witness :
  In 3 (images (st_db (sample_state []))) /\
  fst (@Image_from_buf sample_libs [Byte.x01; Byte.x02; Byte.x03] (sample_state [])) = ROk 3.
Proof.
  split; [simpl; auto |].
  pose proof (proj1 (@C5_from_buf_dedup sample_libs [Byte.x01; Byte.x02; Byte.x03]
                      (sample_state []) ltac:(simpl; auto))) as H.
  vm_compute in H |- *. destruct H as [Hok _]. exact (Hok eq_refl).
Defined.

Lemma C6_verify_consumes_once_witness :
  fst (@Captcha_verify sample_libs 7 "ABC" (sample_state [])) = ROk true /\
  fst (@Captcha_verify sample_libs 7 "abc"
         (snd (@Captcha_verify sample_libs 7 "ABC" (sample_state [])))) = ROk false.
Proof.
  pose proof (@C6_verify_consumes_once sample_libs 7 "ABC" (sample_state []) eq_refl) as H.
  destruct (Captcha_verify 7 "ABC" (sample_state [])) as [r s'] eqn:E.
  destruct H as (Hr & _ & _ & _ & _ & _ & _ & Hnext).
  simpl. split.
  - rewrite Hr. reflexivity.
  - apply Hnext. vm_compute in E. injection E as _ <-. reflexivity.
Defined.

Lemma C8_ban_guard_witness :
  @route_create_post sample_libs (sample_request banned_ip) (sample_state []) =
    (ROk {| status := 403; body := CatcherPage |}, log_event EvQuery (sample_state [])) /\
  @route_create_post sample_libs (sample_request free_ip) (sample_state []) =
    @handle_form sample_libs (sample_request free_ip) free_ip (log_event EvQuery (sample_state [])).
Proof.
  split.
  - destruct (proj1 (@C8_ban_guard sample_libs (sample_request banned_ip) banned_ip
                       (sample_state []) eq_refl) eq_refl ltac:(vm_compute; discriminate))
      as (b & _ & _ & _ & Hr).
    exact Hr.
  - exact (proj1 (proj2 (@C8_ban_guard sample_libs (sample_request free_ip) free_ip
                           (sample_state []) eq_refl)) eq_refl ltac:(vm_compute; reflexivity)).
Defined.


End Witnesses.

(** * Further properties of the code *)

(** ** Running the primitives *)

Lemma bind_ok {A B} (m : M A) (k : A -> M B) (s s'' : St) (b : B) :
  bind m k s = (ROk b, s'') -> exists a s', m s = (ROk a, s') /\ k a s' = (ROk b, s'').
Proof.
  unfold bind. destruct (m s) as [[a | e |] s']; intros H; [eauto | discriminate H | discriminate H].
Qed.

Lemma io_step_ok (e : Error) (ev : Event) (s s' : St) (u : unit) :
  io_step e ev s = (ROk u, s') -> faulty s = false /\ s' = log_event ev s.
Proof. unfold io_step. destruct (faulty s); intros H; inversion H; auto. Qed.

Lemma pool_query_ok {A} (f : Tables -> A) (s s' : St) (a : A) :
  pool_query f s = (ROk a, s') -> faulty s = false /\ a = f (st_db s) /\ s' = log_event EvQuery s.
Proof.
  unfold pool_query, bind, io_step, get, ret.
  destruct (faulty s) eqn:E; intros H; inversion H; auto.
Qed.

Lemma pool_exec_with_ok (f : Tables -> Tables) (s s' : St) (u : unit) :
  pool_exec_with f s = (ROk u, s') ->
  faulty s = false /\ s' = set_db (f (st_db s)) (log_event EvExec s).
Proof.
  unfold pool_exec_with, bind, io_step, modify.
  destruct (faulty s) eqn:E; intros H; inversion H; auto.
Qed.

Lemma pool_exec_ok (w : Write) (s s' : St) (u : unit) :
  pool_exec w s = (ROk u, s') -> s' = set_db (apply_write w (st_db s)) (log_event EvExec s).
Proof.
  unfold pool_exec, bind, io_step, modify.
  destruct (faulty s) eqn:E; intros H; inversion H; auto.
Qed.

Lemma begin_tx_ok (s s' : St) (tx : list Write) :
  begin_tx s = (ROk tx, s') -> tx = [] /\ s' = log_event EvBegin s.
Proof.
  unfold begin_tx, bind, io_step, ret.
  destruct (faulty s) eqn:E; intros H; inversion H; auto.
Qed.

Lemma tx_exec_ok (log : list Write) (w : Write) (s s' : St) (tx : list Write) :
  tx_exec log w s = (ROk tx, s') -> tx = log ++ [w] /\ s' = log_event EvExec s.
Proof.
  unfold tx_exec, bind, io_step, ret.
  destruct (faulty s) eqn:E; intros H; inversion H; auto.
Qed.

Lemma tx_commit_ok (log : list Write) (s s' : St) (u : unit) :
  tx_commit log s = (ROk u, s') -> s' = set_db (apply_log log (st_db s)) (log_event EvCommit s).
Proof.
  unfold tx_commit, bind, io_step, modify.
  destruct (faulty s) eqn:E; intros H; inversion H; auto.
Qed.

Lemma tx_next_post_id_ok (tx : list Write) (board : string) (s s' : St) (r : list Write * Z) :
  tx_next_post_id tx board s = (ROk r, s') ->
  s' = log_event EvExec s /\ fst r = tx ++ [WIncr board] /\
  exists b, find (fun b => String.eqb (b_name b) board) (boards (apply_log tx (st_db s))) = Some b /\
            snd r = b_next_post_id b + 1.
Proof.
  unfold tx_next_post_id, bind, io_step, get, ret, throw.
  destruct (faulty s) eqn:E; [intros H; discriminate H |].
  destruct (find _ _) as [b |] eqn:Ef; [| intros H; discriminate H].
  destruct (Z.leb _ _); intros H; inversion H; subst; eauto.
Qed.

Lemma html_body_db (body : option string) (board : string) (s s' : St) r :
  html_body body board s = (r, s') ->
  st_db s' = st_db s /\ st_now s' = st_now s /\ st_faults s' = st_faults s.
Proof.
  destruct body as [b |]; unfold html_body; cbv beta zeta.
  - destruct (parse_all _) as [ms |]; unfold panic; [| intros H; inversion H; auto].
    unfold pool_query, bind, io_step, get, ret.
    destruct (faulty s); [intros H; inversion H; auto |].
    destruct (reply_replace _ _); intros H; inversion H; auto.
  - unfold ret. intros H; inversion H; auto.
Qed.

Lemma insert_replies_ok (l : list Z) (mk : Z -> ReplyRow) (s s' : St) (u : unit) :
  insert_replies l mk s = (ROk u, s') ->
  st_db s' = {| boards := boards (st_db s); posts := posts (st_db s);
                replies := replies (st_db s) ++ map mk l; images := images (st_db s);
                bans := bans (st_db s); captchas := captchas (st_db s) |} /\
  st_now s' = st_now s /\ st_faults s' = st_faults s.
Proof.
  revert s. induction l as [| m l IH]; intros s H.
  - unfold insert_replies, ret in H. inversion H; subst.
    destruct (st_db s'); simpl. rewrite app_nil_r. auto.
  - simpl in H. apply bind_ok in H as (u1 & s1 & H1 & H).
    apply pool_exec_ok in H1. subst s1.
    destruct (IH _ H) as (Hd & Hn & Hf). rewrite Hd. simpl.
    rewrite <- app_assoc. auto.
Qed.

(** ** Runs of the sequencer *)

Lemma Post_create_thread_ok board title author email sage content ip image (s s' : St) (id : Z) :
  Post_create_thread board title author email sage content ip image s = (ROk id, s') ->
  exists b html replied s2 s3,
    find (fun b => String.eqb (b_name b) board) (boards (st_db s)) = Some b /\
    id = b_next_post_id b + 1 /\
    st_db s2 = st_db s /\ html_body content board s2 = (ROk (html, replied), s3) /\
    st_db s' =
      {| boards := map (incr_board board) (boards (st_db s));
         posts := posts (st_db s) ++
                  [{| p_id := id; p_board := board; p_title := title; p_author := author;
                      p_email := email; p_sage := sage; p_plaintext_content := content;
                      p_html_content := html; p_posted_at := st_now s; p_thread := id;
                      p_ip := ip; p_image := Some image |}];
         replies := replies (st_db s) ++
                    map (fun message => {| r_message_id := message; r_message_board := board;
                                           r_reply_id := id; r_reply_board := board;
                                           r_reply_thread := id |}) replied;
         images := images (st_db s); bans := bans (st_db s); captchas := captchas (st_db s) |} /\
    st_faults s' = st_faults s.
Proof.
  unfold Post_create_thread. intros H.
  apply bind_ok in H as (tx & s1 & H1 & H). apply begin_tx_ok in H1 as [-> ->].
  apply bind_ok in H as (r & s2 & H2 & H). destruct r as [tx per]. cbv beta iota in H.
  apply tx_next_post_id_ok in H2 as (-> & Htx & b & Hb & Hid). simpl in Htx, Hid, Hb. subst.
  apply bind_ok in H as (hb & s3 & H3 & H). destruct hb as [html replied]. cbv beta iota in H.
  destruct (html_body_db _ _ _ _ _ H3) as (Hd3 & Hn3 & Hf3).
  apply bind_ok in H as (t & s4 & H4 & H). unfold now, bind, get, ret in H4.
  inversion H4; subst s4 t; clear H4.
  apply bind_ok in H as (tx' & s5 & H5 & H). apply tx_exec_ok in H5 as [-> ->].
  apply bind_ok in H as (u & s6 & H6 & H). apply insert_replies_ok in H6 as (Hd6 & Hn6 & Hf6).
  apply bind_ok in H as (u' & s7 & H7 & H). apply tx_commit_ok in H7 as ->.
  unfold ret in H. inversion H; subst.
  exists b, html, replied, (log_event EvExec (log_event EvBegin s)), s3.
  simpl in Hd3, Hn3, Hf3, Hd6, Hn6, Hf6 |- *.
  rewrite Hd6, Hd3, Hn3. simpl.
  repeat split; auto. rewrite Hf6, Hf3. reflexivity.
Qed.

Lemma Post_create_ok board thread title author email sage content ip image (s s' : St) (id : Z) :
  Post_create board thread title author email sage content ip image s = (ROk id, s') ->
  exists b html replied s2 s3,
    find (fun b => String.eqb (b_name b) board) (boards (st_db s)) = Some b /\
    id = b_next_post_id b + 1 /\
    st_db s2 = st_db s /\ html_body content board s2 = (ROk (html, replied), s3) /\
    st_db s' =
      {| boards := map (incr_board board) (boards (st_db s));
         posts := posts (st_db s) ++
                  [{| p_id := id; p_board := board; p_title := title; p_author := author;
                      p_email := email; p_sage := sage; p_plaintext_content := content;
                      p_html_content := html; p_posted_at := st_now s; p_thread := thread;
                      p_ip := ip; p_image := image |}];
         replies := replies (st_db s) ++
                    map (fun message => {| r_message_id := message; r_message_board := board;
                                           r_reply_id := id; r_reply_board := board;
                                           r_reply_thread := thread |}) replied;
         images := images (st_db s); bans := bans (st_db s); captchas := captchas (st_db s) |} /\
    st_faults s' = st_faults s.
Proof.
  unfold Post_create. intros H.
  apply bind_ok in H as (tx & s1 & H1 & H). apply begin_tx_ok in H1 as [-> ->].
  apply bind_ok in H as (r & s2 & H2 & H). destruct r as [tx per]. cbv beta iota in H.
  apply tx_next_post_id_ok in H2 as (-> & Htx & b & Hb & Hid). simpl in Htx, Hid, Hb. subst.
  apply bind_ok in H as (hb & s3 & H3 & H). destruct hb as [html replied]. cbv beta iota in H.
  destruct (html_body_db _ _ _ _ _ H3) as (Hd3 & Hn3 & Hf3).
  apply bind_ok in H as (t & s4 & H4 & H). unfold now, bind, get, ret in H4.
  inversion H4; subst s4 t; clear H4.
  apply bind_ok in H as (u0 & s5 & H5 & H). apply pool_exec_ok in H5 as ->.
  apply bind_ok in H as (u & s6 & H6 & H). apply insert_replies_ok in H6 as (Hd6 & Hn6 & Hf6).
  apply bind_ok in H as (u' & s7 & H7 & H). apply tx_commit_ok in H7 as ->.
  unfold ret in H. inversion H; subst.
  exists b, html, replied, (log_event EvExec (log_event EvBegin s)), s3.
  simpl in Hd3, Hn3, Hf3, Hd6, Hn6, Hf6 |- *.
  rewrite Hd6, Hd3. simpl. rewrite Hn3.
  repeat split; auto. rewrite Hf6, Hf3. reflexivity.
Qed.

Lemma in_thread_rows (board : string) (id : Z) (l : list PostRow) (p : PostRow) :
  In p (filter (fun p => Z.eqb (p_thread p) id && String.eqb (p_board p) board) l) <->
  In p l /\ p_thread p = id /\ p_board p = board.
Proof. rewrite filter_In, andb_true_iff, Z.eqb_eq, String.eqb_eq. tauto. Qed.

Lemma Post_for_thread_run (board : string) (id : Z) (s : St) (Hio : faulty s = false) :
  Post_for_thread board id s =
    (match filter (fun p => Z.eqb (p_thread p) id && String.eqb (p_board p) board)
                  (posts (st_db s)) with
     | [] => RErr NotFound
     | rows => ROk rows
     end, log_event EvQuery s).
Proof.
  unfold Post_for_thread, pool_query, bind, io_step, get, ret, throw.
  cbn -[faulty filter]. rewrite Hio. cbn -[filter].
  destruct (filter _ _); reflexivity.
Qed.

Lemma Post_replies_run (p : PostRow) (s : St) (Hio : faulty s = false) :
  Post_replies p s =
    (ROk (map reply_of_row
            (filter (fun r => Z.eqb (r_message_id r) (p_id p) &&
                              String.eqb (r_message_board r) (p_board p))
                    (replies (st_db s)))), log_event EvQuery s).
Proof.
  unfold Post_replies, pool_query, bind, io_step, get, ret.
  cbn -[faulty filter map]. rewrite Hio. reflexivity.
Qed.

Lemma find_incr_board (name : string) (l : list BoardRow) :
  find (fun b => String.eqb (b_name b) name) (map (incr_board name) l) =
  option_map (incr_board name) (find (fun b => String.eqb (b_name b) name) l).
Proof.
  induction l as [| a l IH]; simpl; auto.
  assert (Hb : b_name (incr_board name a) = b_name a)
    by (unfold incr_board; destruct (String.eqb (b_name a) name); reflexivity).
  rewrite Hb. destruct (String.eqb (b_name a) name) eqn:E; simpl; auto.
Qed.

Lemma next_post_id_after (board : string) (d : Tables) (b : BoardRow) :
  find (fun b => String.eqb (b_name b) board) (boards d) = Some b ->
  next_post_id_of board {| boards := map (incr_board board) (boards d); posts := posts d;
                           replies := replies d; images := images d; bans := bans d;
                           captchas := captchas d |} = Some (b_next_post_id b + 1).
Proof.
  intros Hb. unfold next_post_id_of. simpl. rewrite find_incr_board, Hb. simpl.
  apply find_some in Hb as [_ Hn]. unfold incr_board. rewrite Hn. reflexivity.
Qed.

(** What [html_body] returns as outgoing reply ids, in terms of the posts. *)
Lemma html_body_ids (body : option string) (board : string) (s s' : St) (h : string)
    (ids : list Z) :
  html_body body board s = (ROk (h, ids), s') ->
  exists ms, reply_marker_ids body = Some ms /\
    forall i, In i ids <->
      exists p, In p (posts (st_db s)) /\ p_board p = board /\ p_id p = i /\ In i ms.
Proof.
  destruct body as [b |]; unfold html_body, reply_marker_ids; cbv beta zeta.
  - destruct (parse_all _) as [ms |]; unfold panic; [| intros H; discriminate H].
    intros H. apply bind_ok in H as (rows & s1 & H1 & H).
    apply pool_query_ok in H1 as (_ & -> & ->). cbv beta in H.
    destruct (reply_replace _ _); unfold ret in H; [| discriminate H].
    inversion H; subst. exists ms. split; [reflexivity |]. intros i.
    unfold replied_rows. rewrite map_map. simpl. rewrite in_map_iff. split.
    + intros (p & <- & Hp). apply filter_In in Hp as [Hp Hc].
      apply andb_true_iff in Hc as [Hi Hb]. apply String.eqb_eq in Hb.
      exists p. repeat split; auto. apply In_existsb_Zeqb. exact Hi.
    + intros (p & Hp & Hb & <- & Hi). exists p. split; [reflexivity |].
      apply filter_In. split; [exact Hp |]. rewrite (existsb_Zeqb_In _ _ Hi), Hb.
      rewrite String.eqb_refl. reflexivity.
  - unfold ret. intros H. inversion H; subst. exists []. split; [reflexivity |].
    intros i. split; [intros [] | intros (p & _ & _ & _ & [])].
Qed.

(** A post row [q] gets the edge [mk (p_id q)] when its id is among [replied]. *)
Lemma backlink_in (q : PostRow) (board : string) (id thread : Z) (replied : list Z)
    (l : list ReplyRow) :
  p_board q = board -> In (p_id q) replied ->
  In {| reply_id := id; reply_board := board; reply_thread := thread |}
     (map reply_of_row
        (filter (fun r => Z.eqb (r_message_id r) (p_id q) &&
                          String.eqb (r_message_board r) (p_board q))
                (l ++ map (fun message => {| r_message_id := message; r_message_board := board;
                                             r_reply_id := id; r_reply_board := board;
                                             r_reply_thread := thread |}) replied))).
Proof.
  intros Hb Hin. apply in_map_iff.
  exists {| r_message_id := p_id q; r_message_board := board; r_reply_id := id;
            r_reply_board := board; r_reply_thread := thread |}.
  split; [reflexivity |]. apply filter_In. split.
  - apply in_or_app. right. apply in_map_iff. exists (p_id q). auto.
  - simpl. rewrite Z.eqb_refl, Hb, String.eqb_refl. reflexivity.
Qed.

(** X3: a successful [Post::create_thread] appends the new thread's root post
    (thread = its own id, stamped with [NOW()], with the rendered body and
    the image), advances the board's counter to that id, and the thread
    page's query [Post::for_thread] then finds the root. *)
Theorem Post_create_thread_stores_root board title author email sage content ip image
    (s s' : St) (id : Z)
    (H : Post_create_thread board title author email sage content ip image s = (ROk id, s')) :
  next_post_id_of board (st_db s') = Some id /\
  exists html,
    let root := {| p_id := id; p_board := board; p_title := title; p_author := author;
                   p_email := email; p_sage := sage; p_plaintext_content := content;
                   p_html_content := html; p_posted_at := st_now s; p_thread := id;
                   p_ip := ip; p_image := Some image |} in
    posts (st_db s') = posts (st_db s) ++ [root] /\
    (faulty s' = false -> exists l, fst (Post_for_thread board id s') = ROk l /\ In root l).
Proof.
  destruct (Post_create_thread_ok _ _ _ _ _ _ _ _ _ _ _ H)
    as (b & html & replied & s2 & s3 & Hb & Hid & _ & _ & Hd & _).
  split; [rewrite Hd, Hid; apply (next_post_id_after board (st_db s) b Hb) |].
  exists html. cbv zeta. rewrite Hd. simpl. split; [reflexivity |].
  intros Hio. rewrite (Post_for_thread_run board id s' Hio). rewrite Hd. simpl.
  match goal with |- context [filter ?f ?l] => pose proof (in_thread_rows board id l) as Hr end.
  destruct (filter _ _) as [| r rs] eqn:E.
  - exfalso. eapply (proj2 (Hr _)). split; [apply in_or_app; right; left; reflexivity |].
    simpl. auto.
  - eexists. split; [reflexivity |]. apply Hr.
    split; [apply in_or_app; right; left; reflexivity | simpl; auto].
Qed.

(** X4: a successful [Post::create] (a reply) appends its post to the given
    thread, advances the board's counter to its id, and [Post::for_thread]
    of that thread then lists it. *)
Theorem Post_create_stores_reply board thread title author email sage content ip image
    (s s' : St) (id : Z)
    (H : Post_create board thread title author email sage content ip image s = (ROk id, s')) :
  next_post_id_of board (st_db s') = Some id /\
  exists html,
    let post := {| p_id := id; p_board := board; p_title := title; p_author := author;
                   p_email := email; p_sage := sage; p_plaintext_content := content;
                   p_html_content := html; p_posted_at := st_now s; p_thread := thread;
                   p_ip := ip; p_image := image |} in
    posts (st_db s') = posts (st_db s) ++ [post] /\
    (faulty s' = false -> exists l, fst (Post_for_thread board thread s') = ROk l /\ In post l).
Proof.
  destruct (Post_create_ok _ _ _ _ _ _ _ _ _ _ _ _ H)
    as (b & html & replied & s2 & s3 & Hb & Hid & _ & _ & Hd & _).
  split; [rewrite Hd, Hid; apply (next_post_id_after board (st_db s) b Hb) |].
  exists html. cbv zeta. rewrite Hd. simpl. split; [reflexivity |].
  intros Hio. rewrite (Post_for_thread_run board thread s' Hio). rewrite Hd. simpl.
  match goal with |- context [filter ?f ?l] => pose proof (in_thread_rows board thread l) as Hr end.
  destruct (filter _ _) as [| r rs] eqn:E.
  - exfalso. eapply (proj2 (Hr _)). split; [apply in_or_app; right; left; reflexivity |].
    simpl. auto.
  - eexists. split; [reflexivity |]. apply Hr.
    split; [apply in_or_app; right; left; reflexivity | simpl; auto].
Qed.

(** X5: backlinks.  After a successful [Post::create] or
    [Post::create_thread], every post of the board that existed before and
    is named by a reply marker of the body lists the new post among its
    [replies()], and its [post_body] shows the link [/board/thread#id] with
    the text [>>id] (escaped) for it. *)
Theorem reply_backlinks board thread title author email sage content ip image image'
    (s : St) :
  (forall s' id,
     Post_create board thread title author email sage content ip image s = (ROk id, s') ->
     exists ms, reply_marker_ids content = Some ms /\
     forall q, In q (posts (st_db s)) -> p_board q = board -> In (p_id q) ms ->
       faulty s' = false ->
       (exists l, fst (Post_replies q s') = ROk l /\
                  In {| reply_id := id; reply_board := board; reply_thread := thread |} l) /\
       (exists pb, fst (post_body q s') = ROk pb /\
                   In (thread_uri board thread ++ "#" ++ string_of_Z id,
                       "&gt;&gt;" ++ string_of_Z id)%string (pb_reply_links pb))) /\
  (forall s' id,
     Post_create_thread board title author email sage content ip image' s = (ROk id, s') ->
     exists ms, reply_marker_ids content = Some ms /\
     forall q, In q (posts (st_db s)) -> p_board q = board -> In (p_id q) ms ->
       faulty s' = false ->
       (exists l, fst (Post_replies q s') = ROk l /\
                  In {| reply_id := id; reply_board := board; reply_thread := id |} l) /\
       (exists pb, fst (post_body q s') = ROk pb /\
                   In (thread_uri board id ++ "#" ++ string_of_Z id,
                       "&gt;&gt;" ++ string_of_Z id)%string (pb_reply_links pb))).
Proof.
  split.
  - intros s' id H.
    destruct (Post_create_ok _ _ _ _ _ _ _ _ _ _ _ _ H)
      as (b & html & replied & s2 & s3 & _ & _ & Hd2 & Hhb & Hd & _).
    destruct (html_body_ids _ _ _ _ _ _ Hhb) as (ms & Hms & Hids).
    exists ms. split; [exact Hms |]. intros q Hq Hb Hm Hio.
    assert (Hr : In (p_id q) replied) by (apply Hids; exists q; rewrite Hd2; auto).
    pose proof (backlink_in q board id thread replied (replies (st_db s)) Hb Hr) as Hl.
    split.
    + rewrite (Post_replies_run q s' Hio). eexists. split; [reflexivity |]. rewrite Hd. exact Hl.
    + unfold post_body, bind. rewrite (Post_replies_run q s' Hio). unfold ret.
      eexists. split; [reflexivity |]. simpl. rewrite Hd. simpl.
      apply (in_map (fun r => (thread_uri (reply_board r) (reply_thread r) ++ "#" ++
                               string_of_Z (reply_id r),
                               "&gt;&gt;" ++ string_of_Z (reply_id r))%string)) in Hl.
      exact Hl.
  - intros s' id H.
    destruct (Post_create_thread_ok _ _ _ _ _ _ _ _ _ _ _ H)
      as (b & html & replied & s2 & s3 & _ & _ & Hd2 & Hhb & Hd & _).
    destruct (html_body_ids _ _ _ _ _ _ Hhb) as (ms & Hms & Hids).
    exists ms. split; [exact Hms |]. intros q Hq Hb Hm Hio.
    assert (Hr : In (p_id q) replied) by (apply Hids; exists q; rewrite Hd2; auto).
    pose proof (backlink_in q board id id replied (replies (st_db s)) Hb Hr) as Hl.
    split.
    + rewrite (Post_replies_run q s' Hio). eexists. split; [reflexivity |]. rewrite Hd. exact Hl.
    + unfold post_body, bind. rewrite (Post_replies_run q s' Hio). unfold ret.
      eexists. split; [reflexivity |]. simpl. rewrite Hd. simpl.
      apply (in_map (fun r => (thread_uri (reply_board r) (reply_thread r) ++ "#" ++
                               string_of_Z (reply_id r),
                               "&gt;&gt;" ++ string_of_Z (reply_id r))%string)) in Hl.
      exact Hl.
Qed.

(** ** Boards and captchas *)

Lemma bind_run {A B} (m : M A) (k : A -> M B) (s s' : St) (a : A) :
  m s = (ROk a, s') -> bind m k s = k a s'.
Proof. intros H. unfold bind. rewrite H. reflexivity. Qed.

Lemma faulty_nil (s : St) : st_faults s = [] -> faulty s = false.
Proof. unfold faulty. intros ->. reflexivity. Qed.

Lemma pool_query_run {A} (f : Tables -> A) (s : St) :
  faulty s = false -> pool_query f s = (ROk (f (st_db s)), log_event EvQuery s).
Proof. intros Hio. unfold pool_query, bind, io_step, get, ret. rewrite Hio. reflexivity. Qed.

Lemma pool_exec_with_run (f : Tables -> Tables) (s : St) :
  faulty s = false -> pool_exec_with f s = (ROk tt, set_db (f (st_db s)) (log_event EvExec s)).
Proof. intros Hio. unfold pool_exec_with, bind, io_step, modify. rewrite Hio. reflexivity. Qed.

Lemma find_app_fresh {A} (f : A -> bool) (l : list A) (x : A) :
  (forall y, In y l -> f y = false) -> f x = true -> find f (l ++ [x]) = Some x.
Proof.
  intros Hl Hx. induction l as [| y l IH]; simpl; [rewrite Hx; reflexivity |].
  rewrite (Hl y (or_introl eq_refl)). apply IH. intros z Hz. apply Hl. right. exact Hz.
Qed.

Lemma filter_none {A} (f : A -> bool) (l : list A) :
  (forall y, In y l -> f y = false) -> filter f l = [].
Proof.
  induction l as [| y l IH]; intros Hl; simpl; auto.
  rewrite (Hl y (or_introl eq_refl)). apply IH. intros z Hz. apply Hl. right. exact Hz.
Qed.

Lemma fresh_board (name : string) (l : list BoardRow) :
  (forall b, In b l -> b_name b <> name) ->
  forall b, In b l -> String.eqb (b_name b) name = false.
Proof. intros H b Hb. apply String.eqb_neq. exact (H b Hb). Qed.

Section CaptchaRuns.
Context {X : Ext}.

Lemma Captcha_verify_run (id : Z) (answer : string) (s : St) (Hio : faulty s = false) :
  Captcha_verify id answer s =
    (ROk (match find (fun c => Z.eqb (c_id c) id) (captchas (st_db s)) with
          | Some c => String.eqb (c_solution c) (to_lowercase answer)
          | None => false
          end),
     set_db (apply_write (WDelCaptcha id) (st_db s)) (log_event EvExec s)).
Proof.
  unfold Captcha_verify, delete_captcha_returning, bind, io_step, get, modify, ret.
  rewrite Hio. destruct (find _ _); reflexivity.
Qed.

Lemma Captcha_new_run (id : Z) (chars img : string) (s : St) (Hio : faulty s = false) :
  Captcha_new id chars (Some img) s =
    (ROk {| captcha_id := id; base64image := img; solution := to_lowercase chars |},
     set_db {| boards := boards (st_db s); posts := posts (st_db s); replies := replies (st_db s);
               images := images (st_db s); bans := bans (st_db s);
               captchas := captchas (st_db s) ++
                           [{| c_id := id; c_solution := to_lowercase chars |}] |}
            (log_event EvExec s)).
Proof.
  unfold Captcha_new. cbv zeta. unfold bind.
  rewrite (pool_exec_with_run _ _ Hio). reflexivity.
Qed.

(** X6: [Captcha::new] panics before any I/O when the captcha image does
    not encode; otherwise its INSERT stores the lower-cased text under the
    fresh id and nothing else, and a later [Captcha::verify] of that id
    accepts exactly the answers whose lower-cased form equals the
    lower-cased text. *)
Theorem Captcha_new_then_verify (id : Z) (chars img answer : string) (s : St)
    (Hfresh : forall c, In c (captchas (st_db s)) -> c_id c <> id) :
  Captcha_new id chars None s = (RPanic, s) /\
  (let (r, s1) := Captcha_new id chars (Some img) s in
   (faulty s = false ->
      r = ROk {| captcha_id := id; base64image := img; solution := to_lowercase chars |} /\
      captchas (st_db s1) = captchas (st_db s) ++ [{| c_id := id; c_solution := to_lowercase chars |}] /\
      boards (st_db s1) = boards (st_db s) /\ posts (st_db s1) = posts (st_db s) /\
      replies (st_db s1) = replies (st_db s) /\ images (st_db s1) = images (st_db s) /\
      bans (st_db s1) = bans (st_db s) /\
      (faulty s1 = false ->
         fst (Captcha_verify id answer s1) =
           ROk (String.eqb (to_lowercase chars) (to_lowercase answer)))) /\
   (faulty s = true -> r = RErr (Db QueryFailed) /\ st_db s1 = st_db s)).
Proof.
  split; [reflexivity |].
  destruct (faulty s) eqn:Hio.
  - unfold Captcha_new. cbv zeta. unfold pool_exec_with, bind, io_step.
    cbn -[faulty]. rewrite Hio. cbn. split; [discriminate | auto].
  - rewrite (Captcha_new_run id chars img s Hio). split; [| discriminate].
    intros _. repeat split. intros Hio1.
    rewrite (Captcha_verify_run id answer _ Hio1). simpl.
    rewrite find_app_fresh; [reflexivity | | apply Z.eqb_refl].
    intros c Hc. apply Z.eqb_neq. exact (Hfresh c Hc).
Qed.

End CaptchaRuns.

(** X7: [Board::create] appends the board row (with the column's default
    counter) and writes nothing else; for a name no board has yet,
    [Board::get] then finds the new board. *)
Theorem Board_create_then_get (dflt : Z) (name title : string) (s : St)
    (Hfresh : forall b, In b (boards (st_db s)) -> b_name b <> name) :
  let (r, s1) := Board_create dflt name title s in
  (faulty s = false ->
     r = ROk tt /\
     boards (st_db s1) =
       boards (st_db s) ++ [{| b_name := name; b_title := title; b_next_post_id := dflt |}] /\
     posts (st_db s1) = posts (st_db s) /\ replies (st_db s1) = replies (st_db s) /\
     images (st_db s1) = images (st_db s) /\ bans (st_db s1) = bans (st_db s) /\
     captchas (st_db s1) = captchas (st_db s) /\
     (faulty s1 = false ->
        fst (Board_get name s1) = ROk (Some {| board_name := name; board_title := title |}))) /\
  (faulty s = true -> r = RErr (Db QueryFailed) /\ st_db s1 = st_db s).
Proof.
  destruct (faulty s) eqn:Hio.
  - unfold Board_create, pool_exec_with, bind, io_step.
    cbn -[faulty]. rewrite Hio. cbn. split; [discriminate | auto].
  - unfold Board_create. rewrite (pool_exec_with_run _ _ Hio). split; [| discriminate].
    intros _. repeat split. intros Hio1.
    unfold Board_get. rewrite (pool_query_run _ _ Hio1). simpl.
    rewrite find_app_fresh; [reflexivity | exact (fresh_board name _ Hfresh) |].
    apply String.eqb_refl.
Qed.

(** X8: the first thread of a freshly created board: once [Board::create]
    has inserted a board of a new name (with no posts of that board in the
    table), a successful [Post::create_thread] on it gets the id
    [default + 1], and [Post::for_thread] then returns that root post
    alone. *)
Theorem first_thread_on_new_board (dflt : Z) (name title : string)
    title' author email sage content ip image (s s1 s2 : St) (id : Z)
    (Hfresh : forall b, In b (boards (st_db s)) -> b_name b <> name)
    (Hempty : forall p, In p (posts (st_db s)) -> p_board p <> name)
    (H1 : Board_create dflt name title s = (ROk tt, s1))
    (H2 : Post_create_thread name title' author email sage content ip image s1 = (ROk id, s2)) :
  id = dflt + 1 /\
  (faulty s2 = false ->
   exists html,
     fst (Post_for_thread name id s2) =
       ROk [{| p_id := id; p_board := name; p_title := title'; p_author := author;
               p_email := email; p_sage := sage; p_plaintext_content := content;
               p_html_content := html; p_posted_at := st_now s1; p_thread := id;
               p_ip := ip; p_image := Some image |}]).
Proof.
  apply pool_exec_with_ok in H1 as [_ ->].
  destruct (Post_create_thread_ok _ _ _ _ _ _ _ _ _ _ _ H2)
    as (b & html & replied & s3 & s4 & Hb & Hid & _ & _ & Hd & _).
  simpl in Hb. rewrite find_app_fresh in Hb;
    [| exact (fresh_board name _ Hfresh) | apply String.eqb_refl].
  inversion Hb; subst b. simpl in Hid. subst id.
  split; [reflexivity |]. intros Hio. exists html.
  rewrite (Post_for_thread_run name (dflt + 1) s2 Hio), Hd. simpl.
  rewrite filter_app, filter_none; [simpl; rewrite Z.eqb_refl, String.eqb_refl; reflexivity |].
  intros p Hp. apply andb_false_iff. right. apply String.eqb_neq. exact (Hempty p Hp).
Qed.

(** ** The pages *)

Lemma joined_posts (board : string) (d d' : Tables) :
  posts d = posts d' -> joined board d = joined board d'.
Proof. unfold joined, threads_cte, bump_rows. intros ->. reflexivity. Qed.

Lemma post_body_run (p : PostRow) (s : St) (Hio : faulty s = false) :
  exists pb, post_body p s = (ROk pb, log_event EvQuery s) /\ pb_post pb = p.
Proof.
  unfold post_body. rewrite (bind_run _ _ s (log_event EvQuery s) _ (Post_replies_run p s Hio)).
  eexists. split; reflexivity.
Qed.

Lemma mapM_post_body_run (l : list PostRow) (s : St) (Hnf : st_faults s = []) :
  exists bodies s', mapM post_body l s = (ROk bodies, s') /\ map pb_post bodies = l /\
                    st_db s' = st_db s /\ st_faults s' = st_faults s.
Proof.
  revert s Hnf. induction l as [| p l IH]; intros s Hnf.
  - exists [], s. auto.
  - simpl. destruct (post_body_run p s (faulty_nil s Hnf)) as (pb & Hpb & Hp).
    rewrite (bind_run _ _ _ _ _ Hpb).
    destruct (IH (log_event EvQuery s) Hnf) as (bodies & s' & Hm & Hmap & Hd & Hf).
    rewrite (bind_run _ _ _ _ _ Hm). unfold ret.
    exists (pb :: bodies), s'. simpl. rewrite Hp, Hmap, Hd, Hf. auto.
Qed.

Section Pages.
Context {X : Ext}.

Ltac no_fault := apply faulty_nil; simpl; assumption.

Ltac run_with L :=
  match goal with
  | |- context [bind ?m ?k ?st] => rewrite (bind_run m k st _ _ (L st ltac:(no_fault)))
  end.

Ltac run_bodies :=
  match goal with
  | |- context [bind (mapM post_body ?l) ?k ?st] =>
      let Hm := fresh "Hm" in let Hmap := fresh "Hmap" in
      let Hd := fresh "Hd" in let Hf := fresh "Hf" in
      let bodies := fresh "bodies" in let s' := fresh "s'" in
      destruct (mapM_post_body_run l st ltac:(simpl; assumption))
        as (bodies & s' & Hm & Hmap & Hd & Hf);
      rewrite (bind_run _ _ _ _ _ Hm); unfold ret
  end.

Lemma board_route_run (name : string) (cid : Z) (chars b64 : string) (s : St) (b : BoardRow)
    (Hnf : st_faults s = [])
    (Hb : find (fun b => String.eqb (b_name b) name) (boards (st_db s)) = Some b) :
  exists page s', board_route name cid chars (Some b64) s = (ROk page, s') /\
    pg_board page = board_of_row b /\
    pg_form page = (name, None, Some b64) /\
    pg_cookie page = uuid_to_string cid /\
    map pb_post (pg_posts page) = map fst (sort_desc (joined name (st_db s))) /\
    captchas (st_db s') =
      captchas (st_db s) ++ [{| c_id := cid; c_solution := to_lowercase chars |}] /\
    boards (st_db s') = boards (st_db s) /\ posts (st_db s') = posts (st_db s) /\
    replies (st_db s') = replies (st_db s) /\ images (st_db s') = images (st_db s) /\
    bans (st_db s') = bans (st_db s) /\ st_faults s' = st_faults s.
Proof.
  assert (Hn : b_name b = name) by (apply find_some in Hb as [_ Hn]; apply String.eqb_eq; exact Hn).
  unfold board_route, Board_get.
  run_with (@pool_query_run (option Board)
              (fun d => option_map board_of_row
                          (find (fun b => String.eqb (b_name b) name) (boards d)))).
  rewrite Hb. cbn [option_map board_name board_of_row]. cbv beta iota.
  run_with (Captcha_new_run cid chars b64).
  unfold threads_for_board.
  run_with (@pool_query_run (list PostRow) (fun d => map fst (sort_desc (joined (b_name b) d)))).
  run_bodies.
  eexists; exists s'. split; [reflexivity |]. simpl in Hd, Hf |- *.
  rewrite Hmap, Hd, Hf, Hn. simpl.
  rewrite (joined_posts name _ (st_db s)) by reflexivity.
  repeat split; auto.
Qed.

(** X9: the board page [GET /<board>]: for an unknown board it answers
    [NotFound] after the one lookup, before a captcha row is created; for a
    board of the table (and no failing statement) it creates exactly one
    captcha row, holding the lower-cased text under the fresh id, sets the
    [captcha_id] cookie to that id, shows the post form for a new thread of
    the board with the captcha image, and renders the posts
    [Post::threads_for_board] lists, in that order. *)
Theorem board_page (name : string) (cid : Z) (chars : string) (img : option string) (s : St)
    (Hnf : st_faults s = []) :
  (find (fun b => String.eqb (b_name b) name) (boards (st_db s)) = None ->
     board_route name cid chars img s = (RErr NotFound, log_event EvQuery s)) /\
  (forall b b64, find (fun b => String.eqb (b_name b) name) (boards (st_db s)) = Some b ->
     img = Some b64 ->
     exists page s', board_route name cid chars img s = (ROk page, s') /\
       pg_board page = board_of_row b /\
       pg_form page = (name, None, Some b64) /\
       pg_cookie page = uuid_to_string cid /\
       map pb_post (pg_posts page) = map fst (sort_desc (joined name (st_db s))) /\
       captchas (st_db s') =
         captchas (st_db s) ++ [{| c_id := cid; c_solution := to_lowercase chars |}] /\
       boards (st_db s') = boards (st_db s) /\ posts (st_db s') = posts (st_db s) /\
       replies (st_db s') = replies (st_db s) /\ images (st_db s') = images (st_db s) /\
       bans (st_db s') = bans (st_db s)).
Proof.
  split.
  - intros Hb. unfold board_route, Board_get.
    rewrite (bind_run _ _ _ _ _ (pool_query_run _ s (faulty_nil s Hnf))). rewrite Hb.
    reflexivity.
  - intros b b64 Hb ->.
    destruct (board_route_run name cid chars b64 s b Hnf Hb)
      as (page & s' & H & H1 & H2 & H3 & H4 & H5 & H6 & H7 & H8 & H9 & H10 & _).
    exists page, s'. repeat split; auto.
Qed.

(** X10: the thread page [GET /<board>/<thread>]: an unknown board, or a
    thread with no post on the board, is answered [NotFound] with no
    captcha row created; otherwise (no failing statement) it creates one
    captcha row, sets the cookie to its id, shows the reply form for that
    thread, and renders exactly the thread's posts, in table order. *)
Theorem thread_page (name : string) (thread cid : Z) (chars : string) (img : option string)
    (s : St) (Hnf : st_faults s = []) :
  (find (fun b => String.eqb (b_name b) name) (boards (st_db s)) = None ->
     thread_route name thread cid chars img s = (RErr NotFound, log_event EvQuery s)) /\
  (forall b, find (fun b => String.eqb (b_name b) name) (boards (st_db s)) = Some b ->
     (forall p, In p (posts (st_db s)) -> p_board p = name -> p_thread p <> thread) ->
     thread_route name thread cid chars img s =
       (RErr NotFound, log_event EvQuery (log_event EvQuery s))) /\
  (forall b b64 p, find (fun b => String.eqb (b_name b) name) (boards (st_db s)) = Some b ->
     img = Some b64 -> In p (posts (st_db s)) -> p_board p = name -> p_thread p = thread ->
     exists page s', thread_route name thread cid chars img s = (ROk page, s') /\
       pg_board page = board_of_row b /\
       pg_form page = (name, Some thread, Some b64) /\
       pg_cookie page = uuid_to_string cid /\
       map pb_post (pg_posts page) =
         filter (fun p => Z.eqb (p_thread p) thread && String.eqb (p_board p) name)
                (posts (st_db s)) /\
       captchas (st_db s') =
         captchas (st_db s) ++ [{| c_id := cid; c_solution := to_lowercase chars |}] /\
       boards (st_db s') = boards (st_db s) /\ posts (st_db s') = posts (st_db s)).
Proof.
  split; [| split].
  - intros Hb. unfold thread_route, Board_get.
    rewrite (bind_run _ _ _ _ _ (pool_query_run _ s (faulty_nil s Hnf))), Hb. reflexivity.
  - intros b Hb Hnone.
    assert (Hn : b_name b = name)
      by (apply find_some in Hb as [_ Hn]; apply String.eqb_eq; exact Hn).
    unfold thread_route, Board_get.
    rewrite (bind_run _ _ _ _ _ (pool_query_run _ s (faulty_nil s Hnf))), Hb.
    cbn [option_map board_name board_of_row]. cbv beta iota. rewrite Hn.
    unfold bind at 1.
    rewrite (Post_for_thread_run name thread (log_event EvQuery s) ltac:(no_fault)).
    rewrite filter_none; [reflexivity |].
    intros p Hp. apply andb_false_iff.
    destruct (String.eqb_spec (p_board p) name) as [Hpb | Hpb]; [left | right; reflexivity].
    apply Z.eqb_neq. exact (Hnone p Hp Hpb).
  - intros b b64 p Hb -> Hp Hpb Hpt.
    assert (Hn : b_name b = name)
      by (apply find_some in Hb as [_ Hn]; apply String.eqb_eq; exact Hn).
    unfold thread_route, Board_get.
    rewrite (bind_run _ _ _ _ _ (pool_query_run _ s (faulty_nil s Hnf))), Hb.
    cbn [option_map board_name board_of_row]. cbv beta iota. rewrite Hn.
    pose proof (Post_for_thread_run name thread (log_event EvQuery s) ltac:(no_fault)) as Hf.
    pose proof (in_thread_rows name thread (posts (st_db s)) p) as Hr.
    simpl in Hf. destruct (filter _ _) as [| r rs] eqn:E.
    + exfalso. apply (proj2 Hr). auto.
    + rewrite (bind_run _ _ _ _ _ Hf).
      run_with (Captcha_new_run cid chars b64).
      run_bodies.
      eexists; exists s'. split; [reflexivity |]. simpl in Hd |- *.
      rewrite Hmap, Hd. simpl. repeat split; auto.
Qed.

End Pages.

(** ** Which errors the store operations can return: the general form *)

Lemma ne_ret {A} (e : Error) (a : A) : never_err e (ret a).
Proof. intros s. discriminate. Qed.

Lemma ne_throw {A} (e e' : Error) : e' <> e -> never_err e (@throw A e').
Proof. intros He s. simpl. congruence. Qed.

Lemma ne_panic {A} (e : Error) : never_err e (@panic A).
Proof. intros s. discriminate. Qed.

Lemma ne_get (e : Error) : never_err e get.
Proof. intros s. discriminate. Qed.

Lemma ne_modify (e : Error) (f : St -> St) : never_err e (modify f).
Proof. intros s. discriminate. Qed.

Lemma ne_io_step (e e' : Error) (ev : Event) : e' <> e -> never_err e (io_step e' ev).
Proof. intros He s. unfold io_step. destruct (faulty s); simpl; congruence. Qed.

Lemma ne_bind {A B} (e : Error) (m : M A) (k : A -> M B) :
  never_err e m -> (forall a, never_err e (k a)) -> never_err e (bind m k).
Proof.
  intros Hm Hk s. unfold bind.
  specialize (Hm s). destruct (m s) as [[a | e' |] s'].
  - apply Hk.
  - simpl in *. intros He. apply Hm. inversion He. reflexivity.
  - discriminate.
Qed.

Ltac ne :=
  repeat (first
    [ apply ne_bind; intros
    | apply ne_ret
    | apply ne_panic
    | apply ne_get
    | apply ne_modify
    | apply ne_io_step; discriminate
    | apply ne_throw; discriminate
    | match goal with
      | |- never_err _ (match ?x with _ => _ end) => destruct x
      end
    | progress unfold pool_query, pool_exec, begin_tx, tx_exec, tx_commit,
        file_create, file_write_all, note, now, tx_next_post_id,
        delete_captcha_returning ]).

Lemma ne_insert_replies (replied : list Z) (mk : Z -> ReplyRow) :
  never_err MissingOrInvalidCaptchaID (insert_replies replied mk).
Proof.
  induction replied as [| m rest IH]; simpl; ne. exact IH.
Qed.

Lemma ne_html_body (body : option string) (board : string) :
  never_err MissingOrInvalidCaptchaID (html_body body board).
Proof. unfold html_body. ne. Qed.

Lemma ne_Post_create_thread board title author email sage content ip image :
  never_err MissingOrInvalidCaptchaID
    (Post_create_thread board title author email sage content ip image).
Proof.
  unfold Post_create_thread. ne; try apply ne_html_body; apply ne_insert_replies.
Qed.

Lemma ne_Post_create board thread title author email sage content ip image :
  never_err MissingOrInvalidCaptchaID
    (Post_create board thread title author email sage content ip image).
Proof.
  unfold Post_create. ne; try apply ne_html_body; apply ne_insert_replies.
Qed.

Section Accepted.
Context {X : Ext}.

Lemma ne_Image_from_buf (buf : list Byte.byte) :
  never_err MissingOrInvalidCaptchaID (Image_from_buf buf).
Proof. unfold Image_from_buf. ne. Qed.

Lemma create_post_captcha_passed (form : PostForm) (ip : Z) (v : string) (u : Z) (a : string)
    (s s1 : St) :
  uuid_parse v = Some u -> f_captcha form = Some a ->
  Captcha_verify u a s = (ROk true, s1) ->
  fst (create_post form ip (Some v) s) <> RErr MissingOrInvalidCaptchaID.
Proof.
  intros Hu Ha Hv. unfold create_post.
  rewrite (bind_run _ _ s s v) by reflexivity.
  rewrite Hu. rewrite (bind_run _ _ s s u) by reflexivity.
  rewrite Ha. rewrite (bind_run _ _ s s a) by reflexivity.
  rewrite (bind_run _ _ _ _ _ Hv). cbv beta iota delta [negb].
  match goal with
  | |- fst (?m ?st) <> RErr ?e => cut (never_err e m); [intros Hne; apply Hne |]
  end.
  ne; try apply ne_Image_from_buf; try apply ne_Post_create;
    try apply ne_Post_create_thread; try apply ne_html_body; apply ne_insert_replies.
Qed.

(** X11: the captcha of the board page is the one the submission checks:
    for a board of the table, a fresh captcha id whose printed form parses
    back to it, and no failing statement, the [captcha_id] cookie the page
    sets parses to the id of the row the page inserted; [Captcha::verify]
    of that id accepts an answer equal to the drawn text up to
    lower-casing; and [create_post] with that cookie and answer is never
    rejected with [MissingOrInvalidCaptchaID]. *)
Theorem board_page_captcha_accepted (name : string) (cid : Z) (chars b64 answer : string)
    (form : PostForm) (ip : Z) (s : St) (b : BoardRow)
    (Hnf : st_faults s = [])
    (Hb : find (fun b => String.eqb (b_name b) name) (boards (st_db s)) = Some b)
    (Hfresh : forall c, In c (captchas (st_db s)) -> c_id c <> cid)
    (Hround : uuid_parse (uuid_to_string cid) = Some cid)
    (Hans : f_captcha form = Some answer)
    (Hsol : to_lowercase answer = to_lowercase chars) :
  exists page s1, board_route name cid chars (Some b64) s = (ROk page, s1) /\
    uuid_parse (pg_cookie page) = Some cid /\
    fst (Captcha_verify cid answer s1) = ROk true /\
    fst (create_post form ip (Some (pg_cookie page)) s1) <> RErr MissingOrInvalidCaptchaID.
Proof.
  destruct (board_route_run name cid chars b64 s b Hnf Hb)
    as (page & s1 & H & _ & _ & Hc & _ & Hcap & _ & _ & _ & _ & _ & Hf).
  assert (Hv : Captcha_verify cid answer s1 =
                 (ROk true, set_db (apply_write (WDelCaptcha cid) (st_db s1))
                                   (log_event EvExec s1))).
  { rewrite (Captcha_verify_run cid answer s1) by (apply faulty_nil; rewrite Hf; exact Hnf).
    rewrite Hcap, find_app_fresh.
    - simpl. rewrite Hsol. rewrite String.eqb_refl. reflexivity.
    - intros c Hc'. apply Z.eqb_neq. exact (Hfresh c Hc').
    - apply Z.eqb_refl. }
  exists page, s1. rewrite Hc. split; [exact H |]. split; [exact Hround |].
  split; [rewrite Hv; reflexivity |].
  exact (create_post_captcha_passed form ip _ cid answer s1 _ Hround Hans Hv).
Qed.

End Accepted.

(** ** The administration routes *)

Section AdminRuns.
Context {X : Ext}.
Local Open Scope string_scope.

Lemma AdminPrivilege_run (sessions : list SessionRow) (cookie : option string) (s : St) :
  AdminPrivilege_from_request sessions cookie s =
    match option_map uuid_parse cookie with
    | Some (Some u) =>
        (ROk (if faulty s then Forward
              else match find (fun se => Z.eqb (se_id se) u) sessions with
                   | Some se => Success (se_uid se)
                   | None => Forward
                   end), log_event EvQuery s)
    | _ => (ROk Forward, s)
    end.
Proof.
  unfold AdminPrivilege_from_request.
  destruct (option_map uuid_parse cookie) as [[u |] |]; [| reflexivity | reflexivity].
  unfold attempt, Session_get, pool_query, bind, io_step, get, ret.
  destruct (faulty s); [reflexivity |].
  destruct (find _ _); reflexivity.
Qed.

(** No session matches the cookie (in particular when the sessions table
    is empty): the guard forwards, after at most the one query. *)
Lemma AdminPrivilege_forward (sessions : list SessionRow) (cookie : option string) (s : St) :
  (forall v u, cookie = Some v -> uuid_parse v = Some u ->
     find (fun se => Z.eqb (se_id se) u) sessions = None) ->
  exists s', AdminPrivilege_from_request sessions cookie s = (ROk Forward, s') /\
             st_db s' = st_db s.
Proof.
  intros Hno. rewrite AdminPrivilege_run.
  destruct cookie as [v |]; simpl; [| eexists; split; reflexivity].
  destruct (uuid_parse v) as [u |] eqn:Hu; [| eexists; split; reflexivity].
  rewrite (Hno v u eq_refl Hu). destruct (faulty s); eexists; split; reflexivity.
Qed.

Lemma AdminPrivilege_success (sessions : list SessionRow) (cookie : option string) (s : St)
    (v : string) (u : Z) (se : SessionRow) :
  cookie = Some v -> uuid_parse v = Some u ->
  find (fun se => Z.eqb (se_id se) u) sessions = Some se -> faulty s = false ->
  AdminPrivilege_from_request sessions cookie s = (ROk (Success (se_uid se)), log_event EvQuery s).
Proof.
  intros -> Hu Hse Hio. rewrite AdminPrivilege_run. simpl. rewrite Hu, Hio, Hse. reflexivity.
Qed.

(** X15: [POST /admin/submit]: without a session matching the cookie the
    request gets the 404 catcher and no table changes; with one (and no
    failing statement), an invalid [BoardForm] (a field absent or empty)
    gets 422 and no table changes, and a valid one with a name no board
    has inserts the board, with the column default as its next post id,
    and redirects (303) to the board's page [/<name>].  (A name already
    taken is left out: what the INSERT does then depends on the schema's
    constraints, which the repository does not contain.) *)
Theorem create_board_route (sessions : list SessionRow) (dflt : Z) (rq : AdminRequest)
    (s : St) :
  ((forall v u, ar_session_cookie rq = Some v -> uuid_parse v = Some u ->
      find (fun se => Z.eqb (se_id se) u) sessions = None) ->
   let (r, s') := route_create_board sessions dflt rq s in
   r = ROk {| status := 404; body := CatcherPage |} /\ st_db s' = st_db s) /\
  (forall v u se, ar_session_cookie rq = Some v -> uuid_parse v = Some u ->
     find (fun se => Z.eqb (se_id se) u) sessions = Some se -> st_faults s = [] ->
     (two_field_form (ar_field1 rq) (ar_field2 rq) = None ->
        route_create_board sessions dflt rq s =
          (ROk {| status := 422; body := CatcherPage |}, log_event EvQuery s)) /\
     (forall name title, two_field_form (ar_field1 rq) (ar_field2 rq) = Some (name, title) ->
        (forall b, In b (boards (st_db s)) -> b_name b <> name) ->
        exists s', route_create_board sessions dflt rq s =
                     (ROk {| status := 303; body := RedirectTo ("/" ++ encode_segment name) |}, s') /\
          boards (st_db s') = (boards (st_db s) ++
            [{| b_name := name; b_title := title; b_next_post_id := dflt |}])%list /\
          posts (st_db s') = posts (st_db s) /\ replies (st_db s') = replies (st_db s) /\
          captchas (st_db s') = captchas (st_db s))).
Proof.
  split.
  - intros Hno. destruct (AdminPrivilege_forward sessions _ s Hno) as (s' & H & Hd).
    unfold route_create_board. rewrite (bind_run _ _ _ _ _ H). cbn. auto.
  - intros v u se Hc Hu Hse Hnf.
    pose proof (AdminPrivilege_success sessions _ s v u se Hc Hu Hse (faulty_nil s Hnf)) as H.
    unfold route_create_board. rewrite (bind_run _ _ _ _ _ H). split.
    + intros Hf. rewrite Hf. reflexivity.
    + intros name title Hf Hfresh. rewrite Hf. unfold respond_redirect, observe, Board_create, bind.
      rewrite (pool_exec_with_run _ (log_event EvQuery s)) by (apply faulty_nil; exact Hnf).
      eexists. split; [reflexivity |]. simpl. auto.
Qed.

(** X16: [POST /admin/login] needs a session already: without a session
    matching the cookie (so, always, while no code fills the sessions
    table) it gets the 404 catcher and no table changes; with one, a valid
    [LoginForm] is answered with the redirect to [/admin] (the password is
    never read) and an invalid one with 422. *)
Theorem login_route (sessions : list SessionRow) (rq : AdminRequest) (s : St) :
  ((forall v u, ar_session_cookie rq = Some v -> uuid_parse v = Some u ->
      find (fun se => Z.eqb (se_id se) u) sessions = None) ->
   let (r, s') := route_login sessions rq s in
   r = ROk {| status := 404; body := CatcherPage |} /\ st_db s' = st_db s) /\
  (forall v u se, ar_session_cookie rq = Some v -> uuid_parse v = Some u ->
     find (fun se => Z.eqb (se_id se) u) sessions = Some se -> faulty s = false ->
     (two_field_form (ar_field1 rq) (ar_field2 rq) = None ->
        route_login sessions rq s =
          (ROk {| status := 422; body := CatcherPage |}, log_event EvQuery s)) /\
     (forall name password, two_field_form (ar_field1 rq) (ar_field2 rq) = Some (name, password) ->
        route_login sessions rq s =
          (ROk {| status := 303; body := RedirectTo "/admin" |}, log_event EvQuery s))).
Proof.
  split.
  - intros Hno. destruct (AdminPrivilege_forward sessions _ s Hno) as (s' & H & Hd).
    unfold route_login. rewrite (bind_run _ _ _ _ _ H). cbn. auto.
  - intros v u se Hc Hu Hse Hio.
    pose proof (AdminPrivilege_success sessions _ s v u se Hc Hu Hse Hio) as H.
    unfold route_login. rewrite (bind_run _ _ _ _ _ H). split.
    + intros Hf. rewrite Hf. reflexivity.
    + intros name password Hf. rewrite Hf. reflexivity.
Qed.

End AdminRuns.

(** ** The thread listing *)

Lemma insert_desc_In (x y : PostRow * Z) (l : list (PostRow * Z)) :
  In x (insert_desc y l) <-> x = y \/ In x l.
Proof.
  induction l as [| z l IH]; simpl; [intuition congruence |].
  destruct (Z.ltb (snd z) (snd y)); simpl; [intuition congruence |].
  rewrite IH. intuition congruence.
Qed.

Lemma sort_desc_In (x : PostRow * Z) (l : list (PostRow * Z)) :
  In x (sort_desc l) <-> In x l.
Proof.
  unfold sort_desc. rewrite (in_rev l).
  induction (rev l) as [| y l' IH]; simpl; [tauto |].
  rewrite insert_desc_In, IH. intuition congruence.
Qed.

Lemma add_to_group_has (th t : Z) (g : list (Z * Z)) :
  exists m, In (th, m) (add_to_group th t g).
Proof.
  induction g as [| [k m] g IH]; simpl; [eexists; left; reflexivity |].
  destruct (Z.eqb_spec k th) as [-> | _].
  - eexists. left. reflexivity.
  - destruct IH as [m' Hm']. exists m'. right. exact Hm'.
Qed.

Lemma add_to_group_keeps (k m th t : Z) (g : list (Z * Z)) :
  In (k, m) g -> exists m', In (k, m') (add_to_group th t g).
Proof.
  induction g as [| [k' m0] g IH]; simpl; [tauto |].
  intros [Heq | Hin].
  - inversion Heq; subst. destruct (Z.eqb k th); eexists; left; reflexivity.
  - destruct (Z.eqb k' th).
    + exists m. right. exact Hin.
    + destruct (IH Hin) as [m' Hm']. exists m'. right. exact Hm'.
Qed.

Lemma group_fold_keeps (ps : list PostRow) (g : list (Z * Z)) (k : Z) :
  (exists m, In (k, m) g) ->
  exists m, In (k, m) (fold_left (fun g p => add_to_group (p_thread p) (p_posted_at p) g) ps g).
Proof.
  revert g. induction ps as [| p ps IH]; intros g [m Hm]; simpl; [eauto |].
  apply IH. exact (add_to_group_keeps k m _ _ g Hm).
Qed.

Lemma group_max_has (ps : list PostRow) (p : PostRow) :
  In p ps -> exists m, In (p_thread p, m) (group_max ps).
Proof.
  unfold group_max. generalize (@nil (Z * Z)).
  induction ps as [| q ps IH]; intros g Hp; [destruct Hp |].
  destruct Hp as [<- | Hp]; simpl.
  - apply group_fold_keeps. apply add_to_group_has.
  - apply IH. exact Hp.
Qed.

(** X17: the board's thread listing shows opening posts only, and all of
    them: [Post::threads_for_board] returns posts of the table whose id is
    their thread's id, and every post of the board that opens its thread
    is among them (a sage reply never hides its thread, and the opening
    post counts even when it is sage). *)
Theorem threads_for_board_roots (board : string) (s s' : St) (l : list PostRow)
    (H : threads_for_board board s = (ROk l, s')) :
  (forall p, In p l -> In p (posts (st_db s)) /\ p_id p = p_thread p) /\
  (forall r, In r (posts (st_db s)) -> p_board r = board -> p_id r = p_thread r -> In r l).
Proof.
  unfold threads_for_board, pool_query, bind, io_step, get, ret in H.
  destruct (faulty s); [discriminate H |]. inversion H; subst l s'. clear H.
  cbn [st_db log_event]. split.
  - intros p Hp. apply in_map_iff in Hp as [[q m] [Hq Hin]]. simpl in Hq; subst q.
    rewrite sort_desc_In in Hin. unfold joined in Hin.
    apply in_flat_map in Hin as [q [Hq Hin]].
    apply in_map_iff in Hin as [t [Ht Hin]]. inversion Ht; subst q.
    apply filter_In in Hin as [_ Hf]. apply andb_true_iff in Hf as [Ht1 Ht2].
    apply Z.eqb_eq in Ht1, Ht2. split; [exact Hq | congruence].
  - intros r Hr Hb Hroot.
    assert (Hbump : In r (bump_rows board (st_db s))).
    { unfold bump_rows. apply filter_In. split; [exact Hr |].
      rewrite Hb, String.eqb_refl, Hroot, Z.eqb_refl. reflexivity. }
    destruct (group_max_has _ r Hbump) as [m Hm].
    apply in_map_iff. exists (r, m). split; [reflexivity |].
    rewrite sort_desc_In. unfold joined. apply in_flat_map. exists r. split; [exact Hr |].
    apply in_map_iff. exists (p_thread r, m). split; [reflexivity |].
    apply filter_In. split; [exact Hm |]. rewrite Hroot, Z.eqb_refl. reflexivity.
Qed.

(** ** Runs on the concrete inputs *)

Section ExtraWitnesses.
Local Open Scope string_scope.

(** Evaluate the run recorded in [E] and substitute its result. *)
Ltac eval_run E :=
  let E' := fresh "E'" in
  pose proof E as E'; vm_compute in E'; injection E' as ?Er ?Es; subst.

Lemma Post_create_thread_stores_root_witness :
  exists s', Post_create_thread "b" None None None false (Some "hi") free_ip 5 (sample_state []) =
               (ROk 2, s') /\ next_post_id_of "b" (st_db s') = Some 2.
Proof.
  destruct (Post_create_thread "b" None None None false (Some "hi") free_ip 5 (sample_state []))
    as [r s'] eqn:E.
  eval_run E. eexists. split; [exact E |].
  exact (proj1 (Post_create_thread_stores_root _ _ _ _ _ _ _ _ _ _ _ E)).
Defined.

Lemma Post_create_stores_reply_witness :
  exists s', Post_create "b" 1 None None None false (Some ">>1") free_ip None (sample_state []) =
               (ROk 2, s') /\ next_post_id_of "b" (st_db s') = Some 2.
Proof.
  destruct (Post_create "b" 1 None None None false (Some ">>1") free_ip None (sample_state []))
    as [r s'] eqn:E.
  eval_run E. eexists. split; [exact E |].
  exact (proj1 (Post_create_stores_reply _ _ _ _ _ _ _ _ _ _ _ _ E)).
Defined.

Lemma Captcha_new_then_verify_witness :
  @Captcha_new sample_libs 8 "XyZ" None (sample_state []) = (RPanic, sample_state []) /\
  fst (@Captcha_verify sample_libs 8 "xyz"
         (snd (@Captcha_new sample_libs 8 "XyZ" (Some "img") (sample_state [])))) = ROk true.
Proof.
  pose proof (@Captcha_new_then_verify sample_libs 8 "XyZ" "img" "xyz" (sample_state [])
                ltac:(intros c [<- | []]; discriminate)) as [Hp H].
  split; [exact Hp |].
  destruct (Captcha_new 8 "XyZ" (Some "img") (sample_state [])) as [r s1] eqn:E.
  destruct H as [Hok _]. destruct (Hok eq_refl) as (_ & _ & _ & _ & _ & _ & _ & Hv).
  eval_run E. exact (Hv eq_refl).
Defined.

Lemma Board_create_then_get_witness :
  fst (Board_get "c" (snd (Board_create 1 "c" "C" (sample_state [])))) =
    ROk (Some {| board_name := "c"; board_title := "C" |}).
Proof.
  pose proof (Board_create_then_get 1 "c" "C" (sample_state [])
                ltac:(intros b [<- | [<- | []]]; discriminate)) as H.
  destruct (Board_create 1 "c" "C" (sample_state [])) as [r s1] eqn:E.
  destruct H as [Hok _]. destruct (Hok eq_refl) as (_ & _ & _ & _ & _ & _ & _ & Hget).
  eval_run E. exact (Hget eq_refl).
Defined.

Lemma first_thread_on_new_board_witness :
  exists s1 s2, Board_create 1 "c" "C" (sample_state []) = (ROk tt, s1) /\
    Post_create_thread "c" None None None false (Some "hi") free_ip 5 s1 = (ROk 2, s2) /\
    2 = 1 + 1.
Proof.
  destruct (Board_create 1 "c" "C" (sample_state [])) as [r s1] eqn:E1.
  eval_run E1.
  match type of E1 with
  | _ = (_, ?st) =>
      destruct (Post_create_thread "c" None None None false (Some "hi") free_ip 5 st)
        as [r s2] eqn:E2
  end.
  eval_run E2.
  eexists; eexists. split; [exact E1 |]. split; [exact E2 |].
  exact (proj1 (first_thread_on_new_board 1 "c" "C" None None None false (Some "hi") free_ip 5
                  (sample_state []) _ _ 2
                  ltac:(intros b [<- | [<- | []]]; discriminate)
                  ltac:(intros p [<- | [<- | []]]; discriminate) E1 E2)).
Defined.

Lemma board_page_witness :
  exists page s', @board_route sample_libs "b" 8 "XyZ" (Some "img") (sample_state []) =
                    (ROk page, s') /\ pg_cookie page = uuid_to_string 8 /\
                  pg_form page = ("b", None, Some "img").
Proof.
  destruct (proj2 (@board_page sample_libs "b" 8 "XyZ" (Some "img") (sample_state []) eq_refl)
              {| b_name := "b"; b_title := "B"; b_next_post_id := 1 |} "img" eq_refl eq_refl)
    as (page & s' & H & _ & Hf & Hc & _).
  exists page, s'. auto.
Defined.

Lemma thread_page_witness :
  exists page s', @thread_route sample_libs "b" 1 8 "XyZ" (Some "img") (sample_state []) =
                    (ROk page, s') /\
                  map pb_post (pg_posts page) = [sample_post "b" 1 1 false 10].
Proof.
  destruct (proj2 (proj2 (@thread_page sample_libs "b" 1 8 "XyZ" (Some "img")
                             (sample_state []) eq_refl))
              {| b_name := "b"; b_title := "B"; b_next_post_id := 1 |} "img"
              (sample_post "b" 1 1 false 10) eq_refl eq_refl
              ltac:(simpl; auto) eq_refl eq_refl)
    as (page & s' & H & _ & _ & _ & Hp & _).
  exists page, s'. split; [exact H |]. rewrite Hp. reflexivity.
Defined.

Lemma board_page_captcha_accepted_witness :
  exists page s1, @board_route sample_libs "b" 7 "XyZ" (Some "img") no_captchas =
                    (ROk page, s1) /\
    fst (@create_post sample_libs (sample_form None None (Some "xyz")) free_ip
           (Some (pg_cookie page)) s1) <> RErr MissingOrInvalidCaptchaID.
Proof.
  destruct (@board_page_captcha_accepted sample_libs "b" 7 "XyZ" "img" "xyz"
              (sample_form None None (Some "xyz")) free_ip no_captchas
              {| b_name := "b"; b_title := "B"; b_next_post_id := 1 |}
              eq_refl eq_refl ltac:(intros c []) eq_refl eq_refl eq_refl)
    as (page & s1 & H & _ & _ & Hne).
  exists page, s1. auto.
Defined.

Lemma threads_for_board_roots_witness :
  exists l s', threads_for_board "b" (sample_state []) = (ROk l, s') /\
    In (sample_post "b" 1 1 false 10) l.
Proof.
  destruct (threads_for_board "b" (sample_state [])) as [r s'] eqn:E.
  eval_run E. eexists; eexists. split; [exact E |].
  exact (proj2 (threads_for_board_roots _ _ _ _ E) _ (or_introl eq_refl) eq_refl eq_refl).
Defined.

End ExtraWitnesses.
